(** * The FUSE request relay of server.go

    A shallow embedding of [Serve], [handleFuseRequest] and
    [convertAttributes], and the properties of the relay stated over it.

    The handler is a straight-line program over four collaborators: the
    logger, the clock, the file system and the request being answered.  Each
    call on a collaborator is an effect of a small program monad; running a
    program against an environment yields its outcome and the trace of the
    calls it made.  [Serve] is a function of what the connection delivers,
    and the goroutines it starts are the threads of a step relation in which
    the scheduler advances any of them by one call. *)

From Stdlib Require Import ZArith List String Bool Lia.
Import ListNotations.
Open Scope string_scope.
Open Scope list_scope.
Open Scope Z_scope.

(** ** Go values *)

(** The [error] interface values that reach the relay: the sentinel
    [io.EOF], the wire error numbers ([bazilfuse.Errno]), errors made from a
    text ([errors.New]) and errors made by [fmt.Errorf] from a format and the
    error it formats.  [err == io.EOF] is equality of these values. *)
Inductive error : Type :=
| io_EOF
| Errno (number : Z)
| errorString (text : string)
| fmt_Errorf (format : string) (operand : error).

Definition error_eq_dec (a b : error) : {a = b} + {a <> b}.
Proof. decide equality; solve [apply Z.eq_dec | apply string_dec]. Defined.

(** Modelled from the spec: the constant ENOSYS is declared in this package
    outside server.go; the spec names it the fixed "operation not supported"
    wire-level error.  It is a wire error number; which number plays no role
    (38 is its value on Linux). *)
Definition ENOSYS : error := Errno 38.

(** [time.Time] as an absolute instant in nanoseconds, [time.Duration] as a
    signed 64-bit count of nanoseconds. *)
Definition Time := Z.
Definition Duration := Z.

Definition minDuration : Duration := - 2 ^ 63.
Definition maxDuration : Duration := 2 ^ 63 - 1.
Definition Second : Duration := 1000000000.

(** [t.Sub(u)] of the Go library: the difference [t - u], replaced by the
    least or the greatest duration when it does not fit. *)
Definition Time_Sub (t u : Time) : Duration :=
  if t - u <? minDuration then minDuration
  else if maxDuration <? t - u then maxDuration
  else t - u.

(** ** The domain model (package fuse) *)

(** The identifier types are integer types declared outside server.go; the
    conversions between them and the wire types ([InodeID(...)],
    [bazilfuse.NodeID(...)], [uint64(...)]) keep the number. *)
Definition InodeID := Z.
Definition GenerationNumber := Z.
Definition HandleID := Z.
Definition DirOffset := Z.

Record InodeAttributes : Type := mkInodeAttributes {
  InodeAttributes_Size : Z;
  InodeAttributes_Mode : Z;
  InodeAttributes_Atime : Time;
  InodeAttributes_Mtime : Time;
  InodeAttributes_Crtime : Time;
  InodeAttributes_Uid : Z;
  InodeAttributes_Gid : Z
}.

Record InitRequest : Type := mkInitRequest {
  InitRequest_Uid : Z;
  InitRequest_Gid : Z
}.

Inductive InitResponse : Type := mkInitResponse.

Record LookUpInodeRequest : Type := mkLookUpInodeRequest {
  LookUpInodeRequest_Parent : InodeID;
  LookUpInodeRequest_Name : string
}.

Record LookUpInodeResponse : Type := mkLookUpInodeResponse {
  LookUpInodeResponse_Child : InodeID;
  LookUpInodeResponse_Generation : GenerationNumber;
  LookUpInodeResponse_Attributes : InodeAttributes;
  LookUpInodeResponse_AttributesExpiration : Time;
  LookUpInodeResponse_EntryExpiration : Time
}.

Record GetInodeAttributesRequest : Type := mkGetInodeAttributesRequest {
  GetInodeAttributesRequest_Inode : InodeID
}.

Record GetInodeAttributesResponse : Type := mkGetInodeAttributesResponse {
  GetInodeAttributesResponse_Attributes : InodeAttributes;
  GetInodeAttributesResponse_AttributesExpiration : Time
}.

Record OpenDirRequest : Type := mkOpenDirRequest {
  OpenDirRequest_Inode : InodeID;
  OpenDirRequest_Flags : Z
}.

Record OpenDirResponse : Type := mkOpenDirResponse {
  OpenDirResponse_Handle : HandleID
}.

Record ReadDirRequest : Type := mkReadDirRequest {
  ReadDirRequest_Inode : InodeID;
  ReadDirRequest_Handle : HandleID;
  ReadDirRequest_Offset : DirOffset;
  ReadDirRequest_Size : Z
}.

Record ReadDirResponse : Type := mkReadDirResponse {
  ReadDirResponse_Data : list Z
}.

(** What a file system method returns: a response pointer and an error,
    either of which may be nil. *)
Definition FsReturn (A : Type) : Type := (option A * option error)%type.

(** ** The wire model (package bazilfuse), as far as server.go uses it *)

Module bazilfuse.

Record Header : Type := mkHeader {
  Header_Node : Z;
  Header_Uid : Z;
  Header_Gid : Z
}.

Record Attr : Type := mkAttr {
  Attr_Inode : Z;
  Attr_Size : Z;
  Attr_Mode : Z;
  Attr_Atime : Time;
  Attr_Mtime : Time;
  Attr_Crtime : Time;
  Attr_Uid : Z;
  Attr_Gid : Z
}.

Record InitRequest : Type := mkInitRequest {
  InitRequest_Header : Header
}.

Record StatfsRequest : Type := mkStatfsRequest {
  StatfsRequest_Header : Header
}.

Record LookupRequest : Type := mkLookupRequest {
  LookupRequest_Header : Header;
  LookupRequest_Name : string
}.

Record GetattrRequest : Type := mkGetattrRequest {
  GetattrRequest_Header : Header
}.

Record OpenRequest : Type := mkOpenRequest {
  OpenRequest_Header : Header;
  OpenRequest_Dir : bool;
  OpenRequest_Flags : Z
}.

Record ReadRequest : Type := mkReadRequest {
  ReadRequest_Header : Header;
  ReadRequest_Dir : bool;
  ReadRequest_Handle : Z;
  ReadRequest_Offset : Z;
  ReadRequest_Size : Z
}.

(** The [Request] interface: the dynamic types the handler's type switch
    names, and every other kind of request under [OtherRequest]. *)
Inductive Request : Type :=
| Init (typed : InitRequest)
| Statfs (typed : StatfsRequest)
| Lookup (typed : LookupRequest)
| Getattr (typed : GetattrRequest)
| Open (typed : OpenRequest)
| Read (typed : ReadRequest)
| OtherRequest (kind : string) (hdr : Header).

Inductive InitResponse : Type := mkInitResponse.
Inductive StatfsResponse : Type := mkStatfsResponse.

Record LookupResponse : Type := mkLookupResponse {
  LookupResponse_Node : Z;
  LookupResponse_Generation : Z;
  LookupResponse_Attr : Attr;
  LookupResponse_AttrValid : Duration;
  LookupResponse_EntryValid : Duration
}.

Record GetattrResponse : Type := mkGetattrResponse {
  GetattrResponse_Attr : Attr;
  GetattrResponse_AttrValid : Duration
}.

Record OpenResponse : Type := mkOpenResponse {
  OpenResponse_Handle : Z
}.

Record ReadResponse : Type := mkReadResponse {
  ReadResponse_Data : list Z
}.

(** The argument of a request's [Respond] method. *)
Inductive Response : Type :=
| RInit (r : InitResponse)
| RStatfs (r : StatfsResponse)
| RLookup (r : LookupResponse)
| RGetattr (r : GetattrResponse)
| ROpen (r : OpenResponse)
| RRead (r : ReadResponse).

End bazilfuse.

(** ** Effects and programs *)

(** An operand of a logger call. *)
Inductive LogArg : Type :=
| LStr (s : string)
| LReq (r : bazilfuse.Request)
| LErr (e : error)
| LResp (r : bazilfuse.Response).

(** The calls the handler makes on its collaborators, indexed by what they
    return. *)
Inductive Effect : Type -> Type :=
| logger_Println (args : list LogArg) : Effect unit
| logger_Print (args : list LogArg) : Effect unit
| clock_Now : Effect Time
| fs_Init (req : InitRequest) : Effect (FsReturn InitResponse)
| fs_LookUpInode (req : LookUpInodeRequest) : Effect (FsReturn LookUpInodeResponse)
| fs_GetInodeAttributes (req : GetInodeAttributesRequest) :
    Effect (FsReturn GetInodeAttributesResponse)
| fs_OpenDir (req : OpenDirRequest) : Effect (FsReturn OpenDirResponse)
| fs_ReadDir (req : ReadDirRequest) : Effect (FsReturn ReadDirResponse)
| Respond (on : bazilfuse.Request) (resp : bazilfuse.Response) : Effect unit
| RespondError (on : bazilfuse.Request) (err : error) : Effect unit.

(** A program: it returns, panics (a nil pointer dereference), or makes a
    call and goes on with the answer. *)
Inductive Prog (A : Type) : Type :=
| Ret (a : A)
| Panic (why : string)
| Vis {X : Type} (e : Effect X) (k : X -> Prog A).

Arguments Ret {A} a.
Arguments Panic {A} why.
Arguments Vis {A X} e k.

Fixpoint bind {A B : Type} (m : Prog A) (f : A -> Prog B) : Prog B :=
  match m with
  | Ret a => f a
  | Panic why => Panic why
  | Vis e k => Vis e (fun x => bind (k x) f)
  end.

Definition call {X : Type} (e : Effect X) : Prog X := Vis e Ret.

Declare Scope prog_scope.
Delimit Scope prog_scope with prog.
Notation "x <- m ;; k" := (bind m (fun x => k))
  (at level 61, m at next level, right associativity) : prog_scope.
Notation "m ;; k" := (bind m (fun _ => k))
  (at level 61, right associativity) : prog_scope.
Notation "' pat <- m ;; k" := (bind m (fun x => match x with pat => k end))
  (at level 61, pat pattern, m at next level, right associativity) : prog_scope.
Open Scope prog_scope.

Definition nil_dereference : string :=
  "invalid memory address or nil pointer dereference".

(** ** server.go *)

Definition convertAttributes (inode : InodeID) (attr : InodeAttributes)
  : bazilfuse.Attr :=
  {| bazilfuse.Attr_Inode := inode;
     bazilfuse.Attr_Size := InodeAttributes_Size attr;
     bazilfuse.Attr_Mode := InodeAttributes_Mode attr;
     bazilfuse.Attr_Atime := InodeAttributes_Atime attr;
     bazilfuse.Attr_Mtime := InodeAttributes_Mtime attr;
     bazilfuse.Attr_Crtime := InodeAttributes_Crtime attr;
     bazilfuse.Attr_Uid := InodeAttributes_Uid attr;
     bazilfuse.Attr_Gid := InodeAttributes_Gid attr |}.

Definition handleFuseRequest (fuseReq : bazilfuse.Request) : Prog unit :=
  call (logger_Println [LStr "Received:"; LReq fuseReq]) ;;
  match fuseReq with
  | bazilfuse.Init typed =>
      let req :=
        {| InitRequest_Uid :=
             bazilfuse.Header_Uid (bazilfuse.InitRequest_Header typed);
           InitRequest_Gid :=
             bazilfuse.Header_Gid (bazilfuse.InitRequest_Header typed) |} in
      '(_, err) <- call (fs_Init req) ;;
      match err with
      | Some err =>
          call (logger_Print [LStr "Responding:"; LErr err]) ;;
          call (RespondError fuseReq err)
      | None =>
          let fuseResp := bazilfuse.RInit bazilfuse.mkInitResponse in
          call (logger_Print [LStr "Responding:"; LResp fuseResp]) ;;
          call (Respond fuseReq fuseResp)
      end

  | bazilfuse.Statfs typed =>
      let fuseResp := bazilfuse.RStatfs bazilfuse.mkStatfsResponse in
      call (logger_Println [LStr "Responding:"; LResp fuseResp]) ;;
      call (Respond fuseReq fuseResp)

  | bazilfuse.Lookup typed =>
      let req :=
        {| LookUpInodeRequest_Parent :=
             bazilfuse.Header_Node (bazilfuse.LookupRequest_Header typed);
           LookUpInodeRequest_Name := bazilfuse.LookupRequest_Name typed |} in
      '(resp, err) <- call (fs_LookUpInode req) ;;
      match err with
      | Some err =>
          call (logger_Print [LStr "Responding:"; LErr err]) ;;
          call (RespondError fuseReq err)
      | None =>
          match resp with
          | None => Panic nil_dereference
          | Some resp =>
              let node := LookUpInodeResponse_Child resp in
              let generation := LookUpInodeResponse_Generation resp in
              let attr :=
                convertAttributes (LookUpInodeResponse_Child resp)
                                  (LookUpInodeResponse_Attributes resp) in
              now1 <- call clock_Now ;;
              let attrValid :=
                Time_Sub (LookUpInodeResponse_AttributesExpiration resp) now1 in
              now2 <- call clock_Now ;;
              let entryValid :=
                Time_Sub (LookUpInodeResponse_EntryExpiration resp) now2 in
              let fuseResp :=
                bazilfuse.RLookup
                  {| bazilfuse.LookupResponse_Node := node;
                     bazilfuse.LookupResponse_Generation := generation;
                     bazilfuse.LookupResponse_Attr := attr;
                     bazilfuse.LookupResponse_AttrValid := attrValid;
                     bazilfuse.LookupResponse_EntryValid := entryValid |} in
              call (logger_Print [LStr "Responding:"; LResp fuseResp]) ;;
              call (Respond fuseReq fuseResp)
          end
      end

  | bazilfuse.Getattr typed =>
      let req :=
        {| GetInodeAttributesRequest_Inode :=
             bazilfuse.Header_Node (bazilfuse.GetattrRequest_Header typed) |} in
      '(resp, err) <- call (fs_GetInodeAttributes req) ;;
      match err with
      | Some err =>
          call (logger_Print [LStr "Responding:"; LErr err]) ;;
          call (RespondError fuseReq err)
      | None =>
          match resp with
          | None => Panic nil_dereference
          | Some resp =>
              let attr :=
                convertAttributes (GetInodeAttributesRequest_Inode req)
                                  (GetInodeAttributesResponse_Attributes resp) in
              now1 <- call clock_Now ;;
              let attrValid :=
                Time_Sub (GetInodeAttributesResponse_AttributesExpiration resp)
                         now1 in
              let fuseResp :=
                bazilfuse.RGetattr
                  {| bazilfuse.GetattrResponse_Attr := attr;
                     bazilfuse.GetattrResponse_AttrValid := attrValid |} in
              call (logger_Print [LStr "Responding:"; LResp fuseResp]) ;;
              call (Respond fuseReq fuseResp)
          end
      end

  | bazilfuse.Open typed =>
      if negb (bazilfuse.OpenRequest_Dir typed) then
        call (logger_Println
                [LStr "We don't yet support files. Returning ENOSYS."]) ;;
        call (RespondError fuseReq ENOSYS)
      else
        let req :=
          {| OpenDirRequest_Inode :=
               bazilfuse.Header_Node (bazilfuse.OpenRequest_Header typed);
             OpenDirRequest_Flags := bazilfuse.OpenRequest_Flags typed |} in
        '(resp, err) <- call (fs_OpenDir req) ;;
        match err with
        | Some err =>
            call (logger_Print [LStr "Responding:"; LErr err]) ;;
            call (RespondError fuseReq err)
        | None =>
            match resp with
            | None => Panic nil_dereference
            | Some resp =>
                let fuseResp :=
                  bazilfuse.ROpen
                    {| bazilfuse.OpenResponse_Handle :=
                         OpenDirResponse_Handle resp |} in
                call (logger_Print [LStr "Responding:"; LResp fuseResp]) ;;
                call (Respond fuseReq fuseResp)
            end
        end

  | bazilfuse.Read typed =>
      if negb (bazilfuse.ReadRequest_Dir typed) then
        call (logger_Println
                [LStr "We don't yet support files. Returning ENOSYS."]) ;;
        call (RespondError fuseReq ENOSYS)
      else
        let req :=
          {| ReadDirRequest_Inode :=
               bazilfuse.Header_Node (bazilfuse.ReadRequest_Header typed);
             ReadDirRequest_Handle := bazilfuse.ReadRequest_Handle typed;
             ReadDirRequest_Offset := bazilfuse.ReadRequest_Offset typed;
             ReadDirRequest_Size := bazilfuse.ReadRequest_Size typed |} in
        '(resp, err) <- call (fs_ReadDir req) ;;
        match err with
        | Some err =>
            call (logger_Print [LStr "Responding:"; LErr err]) ;;
            call (RespondError fuseReq err)
        | None =>
            match resp with
            | None => Panic nil_dereference
            | Some resp =>
                let fuseResp :=
                  bazilfuse.RRead
                    {| bazilfuse.ReadResponse_Data :=
                         ReadDirResponse_Data resp |} in
                call (logger_Print [LStr "Responding:"; LResp fuseResp]) ;;
                call (Respond fuseReq fuseResp)
            end
        end

  | bazilfuse.OtherRequest _ _ =>
      call (logger_Println [LStr "Unhandled type. Returning ENOSYS."]) ;;
      call (RespondError fuseReq ENOSYS)
  end.

(** ** Running a program *)

(** The environment of a handler: a clock and a file system over a state of
    their own.  A call may change that state, so that time may pass while
    the file system works or between two readings of the clock. *)
Record Env (S : Type) : Type := mkEnv {
  env_Now : S -> Time * S;
  env_Init : InitRequest -> S -> FsReturn InitResponse * S;
  env_LookUpInode :
    LookUpInodeRequest -> S -> FsReturn LookUpInodeResponse * S;
  env_GetInodeAttributes :
    GetInodeAttributesRequest -> S -> FsReturn GetInodeAttributesResponse * S;
  env_OpenDir : OpenDirRequest -> S -> FsReturn OpenDirResponse * S;
  env_ReadDir : ReadDirRequest -> S -> FsReturn ReadDirResponse * S
}.

Arguments mkEnv {S}.
Arguments env_Now {S}.
Arguments env_Init {S}.
Arguments env_LookUpInode {S}.
Arguments env_GetInodeAttributes {S}.
Arguments env_OpenDir {S}.
Arguments env_ReadDir {S}.

(** A call that was made, with its answer. *)
Inductive Event : Type :=
| Ev {X : Type} (e : Effect X) (x : X).

Inductive Outcome (A : Type) : Type :=
| Returned (a : A)
| Panicked (why : string).

Arguments Returned {A} a.
Arguments Panicked {A} why.

Definition perform {S X : Type} (env : Env S) (e : Effect X) (s : S) : X * S :=
  match e in Effect X return X * S with
  | logger_Println _ => (tt, s)
  | logger_Print _ => (tt, s)
  | clock_Now => env_Now env s
  | fs_Init req => env_Init env req s
  | fs_LookUpInode req => env_LookUpInode env req s
  | fs_GetInodeAttributes req => env_GetInodeAttributes env req s
  | fs_OpenDir req => env_OpenDir env req s
  | fs_ReadDir req => env_ReadDir env req s
  | Respond _ _ => (tt, s)
  | RespondError _ _ => (tt, s)
  end.

Fixpoint run {S A : Type} (env : Env S) (p : Prog A) (s : S)
  : Outcome A * S * list Event :=
  match p with
  | Ret a => (Returned a, s, [])
  | Panic why => (Panicked why, s, [])
  | Vis e k =>
      let (x, s1) := perform env e s in
      let '(o, s2, tr) := run env (k x) s1 in
      (o, s2, Ev e x :: tr)
  end.

Definition outcome {S A : Type} (r : Outcome A * S * list Event) : Outcome A :=
  fst (fst r).
Definition trace {S A : Type} (r : Outcome A * S * list Event) : list Event :=
  snd r.

(** ** Reading a trace *)

(** An answer given on a request: [Respond] or [RespondError]. *)
Inductive Reply : Type :=
| Success (on : bazilfuse.Request) (resp : bazilfuse.Response)
| Failure (on : bazilfuse.Request) (err : error).

Definition reply_of (ev : Event) : option Reply :=
  match ev with
  | Ev (Respond on resp) _ => Some (Success on resp)
  | Ev (RespondError on err) _ => Some (Failure on err)
  | Ev _ _ => None
  end.

Fixpoint replies (tr : list Event) : list Reply :=
  match tr with
  | [] => []
  | ev :: tr' =>
      match reply_of ev with
      | Some r => r :: replies tr'
      | None => replies tr'
      end
  end.

Definition is_fs_call (ev : Event) : bool :=
  match ev with
  | Ev (fs_Init _) _ => true
  | Ev (fs_LookUpInode _) _ => true
  | Ev (fs_GetInodeAttributes _) _ => true
  | Ev (fs_OpenDir _) _ => true
  | Ev (fs_ReadDir _) _ => true
  | Ev _ _ => false
  end.

Definition is_clock_reading (ev : Event) : bool :=
  match ev with
  | Ev clock_Now _ => true
  | Ev _ _ => false
  end.

Definition is_log (ev : Event) : bool :=
  match ev with
  | Ev (logger_Println _) _ => true
  | Ev (logger_Print _) _ => true
  | Ev _ _ => false
  end.

Definition fs_calls (tr : list Event) : list Event := filter is_fs_call tr.
Definition clock_readings (tr : list Event) : list Event :=
  filter is_clock_reading tr.
Definition log_lines (tr : list Event) : list Event := filter is_log tr.

(** ** The read loop *)

(** What [c.ReadRequest()] returns: the next request of the connection, or
    an error ([io.EOF] once the connection is closed). *)
Inductive ReadResult : Type :=
| ReadOk (fuseReq : bazilfuse.Request)
| ReadErr (err : error).

(** What one turn of the loop of [Serve] does with what it read: return
    from [Serve], or start a goroutine on the request and loop. *)
Inductive Turn : Type :=
| Return (err : option error)
| Go (fuseReq : bazilfuse.Request).

Definition Serve_turn (r : ReadResult) : Turn :=
  match r with
  | ReadErr err =>
      if error_eq_dec err io_EOF then Return None
      else Return (Some (fmt_Errorf "Conn.ReadRequest: %v" err))
  | ReadOk fuseReq => Go fuseReq
  end.

(** [Serve] on a connection that will deliver [c]: the requests handed to
    goroutines, in the order they were started, and what [Serve] returns;
    [None] when it is still blocked in [ReadRequest] after all of [c]. *)
Fixpoint Serve (c : list ReadResult)
  : list bazilfuse.Request * option (option error) :=
  match c with
  | [] => ([], None)
  | r :: c' =>
      match Serve_turn r with
      | Return err => ([], Some err)
      | Go fuseReq =>
          let (started, result) := Serve c' in (fuseReq :: started, result)
      end
  end.

(** ** What the file system owes the relay *)

(** A file system method that returns no error returns a response: the
    handler dereferences the response of [LookUpInode],
    [GetInodeAttributes], [OpenDir] and [ReadDir] once the error is nil. *)
Definition answered {A : Type} (r : FsReturn A) : bool :=
  match r with
  | (None, None) => false
  | _ => true
  end.

Record provider_contract {S : Type} (env : Env S) : Prop := {
  contract_LookUpInode :
    forall req s, answered (fst (env_LookUpInode env req s)) = true;
  contract_GetInodeAttributes :
    forall req s, answered (fst (env_GetInodeAttributes env req s)) = true;
  contract_OpenDir :
    forall req s, answered (fst (env_OpenDir env req s)) = true;
  contract_ReadDir :
    forall req s, answered (fst (env_ReadDir env req s)) = true
}.

(** The error a file system call returned, if the event is such a call and
    its error is not nil. *)
Definition fs_error (ev : Event) : option error :=
  match ev with
  | Ev (fs_Init _) x => snd x
  | Ev (fs_LookUpInode _) x => snd x
  | Ev (fs_GetInodeAttributes _) x => snd x
  | Ev (fs_OpenDir _) x => snd x
  | Ev (fs_ReadDir _) x => snd x
  | Ev _ _ => None
  end.

Definition reply_on (r : Reply) : bazilfuse.Request :=
  match r with
  | Success on _ => on
  | Failure on _ => on
  end.

(** The validity durations a reply carries. *)
Definition attr_validity (r : Reply) : option Duration :=
  match r with
  | Success _ (bazilfuse.RLookup l) => Some (bazilfuse.LookupResponse_AttrValid l)
  | Success _ (bazilfuse.RGetattr g) =>
      Some (bazilfuse.GetattrResponse_AttrValid g)
  | _ => None
  end.

Definition entry_validity (r : Reply) : option Duration :=
  match r with
  | Success _ (bazilfuse.RLookup l) =>
      Some (bazilfuse.LookupResponse_EntryValid l)
  | _ => None
  end.

(** The requests of the two request-to-domain conversions that carry an
    expiration back. *)
Definition lookup_request (typed : bazilfuse.LookupRequest) : LookUpInodeRequest :=
  {| LookUpInodeRequest_Parent :=
       bazilfuse.Header_Node (bazilfuse.LookupRequest_Header typed);
     LookUpInodeRequest_Name := bazilfuse.LookupRequest_Name typed |}.

Definition getattr_request (typed : bazilfuse.GetattrRequest)
  : GetInodeAttributesRequest :=
  {| GetInodeAttributesRequest_Inode :=
       bazilfuse.Header_Node (bazilfuse.GetattrRequest_Header typed) |}.

(** The validity duration as the specification words it:
    [expiration - now], floored at zero. *)
Definition floored_validity (expiration now : Time) : Duration :=
  Z.max 0 (expiration - now).

(** A request for a file rather than a directory: an Open or a Read whose
    directory flag is unset. *)
Definition file_request (fuseReq : bazilfuse.Request) : bool :=
  match fuseReq with
  | bazilfuse.Open typed => negb (bazilfuse.OpenRequest_Dir typed)
  | bazilfuse.Read typed => negb (bazilfuse.ReadRequest_Dir typed)
  | _ => false
  end.

(** ** A simulated environment

    The state is the time a simulated clock shows.  Every call on the file
    system takes [latency]; every reading of the clock takes [tick]; what the
    file system returns expires [ttl] after the call was made.  Looking up
    the name "missing" fails. *)
Definition sample_attributes : InodeAttributes :=
  {| InodeAttributes_Size := 4096;
     InodeAttributes_Mode := 493;
     InodeAttributes_Atime := 11;
     InodeAttributes_Mtime := 12;
     InodeAttributes_Crtime := 13;
     InodeAttributes_Uid := 501;
     InodeAttributes_Gid := 20 |}.

Definition ENOENT : error := Errno 2.

Definition simulated (ttl latency tick : Duration) : Env Time :=
  {| env_Now := fun t => (t, t + tick);
     env_Init := fun _ t => ((Some mkInitResponse, None), t + latency);
     env_LookUpInode := fun req t =>
       if String.eqb (LookUpInodeRequest_Name req) "missing"
       then ((None, Some ENOENT), t + latency)
       else ((Some {| LookUpInodeResponse_Child :=
                        LookUpInodeRequest_Parent req + 1;
                      LookUpInodeResponse_Generation := 1;
                      LookUpInodeResponse_Attributes := sample_attributes;
                      LookUpInodeResponse_AttributesExpiration := t + ttl;
                      LookUpInodeResponse_EntryExpiration := t + ttl |},
              None), t + latency);
     env_GetInodeAttributes := fun _ t =>
       ((Some {| GetInodeAttributesResponse_Attributes := sample_attributes;
                 GetInodeAttributesResponse_AttributesExpiration := t + ttl |},
         None), t + latency);
     env_OpenDir := fun req t =>
       ((Some {| OpenDirResponse_Handle := OpenDirRequest_Inode req |}, None),
        t + latency);
     env_ReadDir := fun _ t =>
       ((Some {| ReadDirResponse_Data := [] |}, None), t + latency) |}.

Definition sample_header : bazilfuse.Header :=
  {| bazilfuse.Header_Node := 1;
     bazilfuse.Header_Uid := 501;
     bazilfuse.Header_Gid := 20 |}.

Definition sample_lookup (name : string) : bazilfuse.LookupRequest :=
  {| bazilfuse.LookupRequest_Header := sample_header;
     bazilfuse.LookupRequest_Name := name |}.

Definition sample_getattr : bazilfuse.GetattrRequest :=
  {| bazilfuse.GetattrRequest_Header := sample_header |}.

Definition sample_open_file : bazilfuse.Request :=
  bazilfuse.Open {| bazilfuse.OpenRequest_Header := sample_header;
                    bazilfuse.OpenRequest_Dir := false;
                    bazilfuse.OpenRequest_Flags := 0 |}.

Definition sample_read_file : bazilfuse.Request :=
  bazilfuse.Read {| bazilfuse.ReadRequest_Header := sample_header;
                    bazilfuse.ReadRequest_Dir := false;
                    bazilfuse.ReadRequest_Handle := 7;
                    bazilfuse.ReadRequest_Offset := 0;
                    bazilfuse.ReadRequest_Size := 4096 |}.

(** ** Goroutines

    [Serve] starts a goroutine for each request it reads and goes back to
    reading.  The system is then [Serve] in its loop and the goroutines
    started so far, each with what is left of its handler; the scheduler may
    let any of them make its next call.  The calls made are recorded in the
    order they happen, each with the number of its goroutine (the position of
    its request among those read). *)
Record System (S : Type) : Type := mkSystem {
  sys_conn : list ReadResult;
  sys_serve : option (option error);
  sys_tasks : list (bazilfuse.Request * Prog unit);
  sys_state : S;
  sys_trace : list (nat * Event)
}.

Arguments mkSystem {S}.
Arguments sys_conn {S}.
Arguments sys_serve {S}.
Arguments sys_tasks {S}.
Arguments sys_state {S}.
Arguments sys_trace {S}.

(** [sys_conn] is what [ReadRequest] has yet to deliver; [sys_serve] is
    [None] while [Serve] loops and what it returned afterwards. *)
Definition boot {S : Type} (c : list ReadResult) (s : S) : System S :=
  mkSystem c None [] s [].

Inductive step {S : Type} (env : Env S) : System S -> System S -> Prop :=
| step_Serve_go r c tasks s tr fuseReq :
    Serve_turn r = Go fuseReq ->
    step env (mkSystem (r :: c) None tasks s tr)
             (mkSystem c None
                       (tasks ++ [(fuseReq, handleFuseRequest fuseReq)]) s tr)
| step_Serve_return r c tasks s tr err :
    Serve_turn r = Return err ->
    step env (mkSystem (r :: c) None tasks s tr)
             (mkSystem c (Some err) tasks s tr)
| step_goroutine c serve before fuseReq (X : Type) (e : Effect X) k after
                 s tr x s1 :
    perform env e s = (x, s1) ->
    step env (mkSystem c serve (before ++ (fuseReq, Vis e k) :: after) s tr)
             (mkSystem c serve (before ++ (fuseReq, k x) :: after) s1
                       (tr ++ [(List.length before, Ev e x)])).

Inductive reaches {S : Type} (env : Env S) : System S -> System S -> Prop :=
| reaches_refl sys : reaches env sys sys
| reaches_step sys1 sys2 sys3 :
    reaches env sys1 sys2 -> step env sys2 sys3 -> reaches env sys1 sys3.

(** The calls of goroutine [i], and the goroutines that replied, in the
    order of their replies. *)
Definition events_of (i : nat) (tr : list (nat * Event)) : list Event :=
  map snd (filter (fun p => Nat.eqb (fst p) i) tr).

Definition is_reply (ev : Event) : bool :=
  match reply_of ev with
  | Some _ => true
  | None => false
  end.

Definition reply_order (tr : list (nat * Event)) : list nat :=
  map fst (filter (fun p => is_reply (snd p)) tr).

Definition finished (task : bazilfuse.Request * Prog unit) : bool :=
  match snd task with
  | Ret _ => true
  | _ => false
  end.

Definition panicked (task : bazilfuse.Request * Prog unit) : bool :=
  match snd task with
  | Panic _ => true
  | _ => false
  end.

(** An answer to a call that keeps the contract of the file system. *)
Definition well_answered {X : Type} (e : Effect X) : X -> bool :=
  match e in Effect X return X -> bool with
  | fs_LookUpInode _ => answered
  | fs_GetInodeAttributes _ => answered
  | fs_OpenDir _ => answered
  | fs_ReadDir _ => answered
  | _ => fun _ => true
  end.

Definition effect_reply {X : Type} (e : Effect X) : option Reply :=
  match e with
  | Respond on resp => Some (Success on resp)
  | RespondError on err => Some (Failure on err)
  | _ => None
  end.

(** [owes on p n]: whatever the collaborators answer within the contract,
    the program [p] returns after exactly [n] replies, all on [on]. *)
Inductive owes (on : bazilfuse.Request) : Prog unit -> nat -> Prop :=
| owes_Ret : owes on (Ret tt) 0
| owes_reply (X : Type) (e : Effect X) k r n :
    effect_reply e = Some r ->
    reply_on r = on ->
    (forall x, owes on (k x) n) ->
    owes on (Vis e k) (Datatypes.S n)
| owes_call (X : Type) (e : Effect X) k n :
    effect_reply e = None ->
    (forall x, well_answered e x = true -> owes on (k x) n) ->
    owes on (Vis e k) n.

(** What a derivation of [owes] says of its program, by the shape of the
    program. *)
Definition owes_shape (on : bazilfuse.Request) (p : Prog unit) (n : nat)
  : Prop :=
  match p with
  | Ret _ => n = 0%nat
  | Panic _ => False
  | Vis e k =>
      match effect_reply e with
      | Some r =>
          reply_on r = on /\
          exists m, n = Datatypes.S m /\ forall x, owes on (k x) m
      | None => forall x, well_answered e x = true -> owes on (k x) n
      end
  end.

(** The invariant of the system started on a connection that delivers [c]:
    the requests of the goroutines are those read so far, in the order of
    [c]; every recorded call belongs to a goroutine that exists; and each
    goroutine has replied on its own request as many times as its program
    no longer owes, of the one reply the handler owes. *)
Definition transport_ok {S : Type} (c : list ReadResult) (sys : System S)
  : Prop :=
  match sys_serve sys with
  | None => c = map ReadOk (map fst (sys_tasks sys)) ++ sys_conn sys
  | Some err =>
      exists r, c = map ReadOk (map fst (sys_tasks sys)) ++ r :: sys_conn sys /\
                Serve_turn r = Return err
  end.

Definition task_ok (tr : list (nat * Event)) (i : nat)
    (task : bazilfuse.Request * Prog unit) : Prop :=
  exists n,
    owes (fst task) (snd task) n /\
    (List.length (replies (events_of i tr)) + n = 1)%nat /\
    Forall (fun r => reply_on r = fst task) (replies (events_of i tr)).

Definition invariant {S : Type} (c : list ReadResult) (sys : System S)
  : Prop :=
  transport_ok c sys /\
  Forall (fun p => (fst p < List.length (sys_tasks sys))%nat) (sys_trace sys) /\
  forall i task, nth_error (sys_tasks sys) i = Some task ->
                 task_ok (sys_trace sys) i task.

(** A connection that delivers an Open for a file, a GetAttributes, and
    then is closed; and the system in which the second goroutine ran before
    the first, and [Serve] has returned. *)
Definition sample_conn : list ReadResult :=
  [ReadOk sample_open_file; ReadOk (bazilfuse.Getattr sample_getattr);
   ReadErr io_EOF].

Definition sample_system : System Time :=
  let env := simulated (5 * Second) (2 * Second) 0 in
  let g1 := run env (handleFuseRequest (bazilfuse.Getattr sample_getattr)) 0 in
  let g0 := run env (handleFuseRequest sample_open_file) (snd (fst g1)) in
  mkSystem [] (Some None)
           [(sample_open_file, Ret tt);
            (bazilfuse.Getattr sample_getattr, Ret tt)]
           (snd (fst g0))
           (map (pair 1%nat) (trace g1) ++ map (pair 0%nat) (trace g0)).

(** ** Further readings of a trace and further samples *)

(** A file system call that returned neither a response nor an error, where
    the handler goes on to read the response. *)
Definition nil_answer (ev : Event) : bool :=
  match ev with
  | Ev (fs_LookUpInode _) x => negb (answered x)
  | Ev (fs_GetInodeAttributes _) x => negb (answered x)
  | Ev (fs_OpenDir _) x => negb (answered x)
  | Ev (fs_ReadDir _) x => negb (answered x)
  | Ev _ _ => false
  end.

(** The request the handler builds for [ReadDir]. *)
Definition readdir_request (typed : bazilfuse.ReadRequest) : ReadDirRequest :=
  {| ReadDirRequest_Inode :=
       bazilfuse.Header_Node (bazilfuse.ReadRequest_Header typed);
     ReadDirRequest_Handle := bazilfuse.ReadRequest_Handle typed;
     ReadDirRequest_Offset := bazilfuse.ReadRequest_Offset typed;
     ReadDirRequest_Size := bazilfuse.ReadRequest_Size typed |}.

(** The number of validity durations a reply carries. *)
Definition validities (r : Reply) : nat :=
  match r with
  | Success _ (bazilfuse.RLookup _) => 2
  | Success _ (bazilfuse.RGetattr _) => 1
  | _ => 0
  end.

(** [path p evs q]: making the calls [evs], with the answers they record,
    takes the program [p] to what is left of it, [q]. *)
Inductive path : Prog unit -> list Event -> Prog unit -> Prop :=
| path_here p : path p [] p
| path_call (X : Type) (e : Effect X) k x evs q :
    path (k x) evs q -> path (Vis e k) (Ev e x :: evs) q.

(** A file system that returns neither responses nor errors, and one whose
    directory listings ignore the size asked for. *)
Definition silent : Env Time :=
  {| env_Now := fun t => (t, t);
     env_Init := fun _ t => ((None, None), t);
     env_LookUpInode := fun _ t => ((None, None), t);
     env_GetInodeAttributes := fun _ t => ((None, None), t);
     env_OpenDir := fun _ t => ((None, None), t);
     env_ReadDir := fun _ t => ((None, None), t) |}.

Definition listing (data : list Z) : Env Time :=
  {| env_Now := fun t => (t, t);
     env_Init := fun _ t => ((Some mkInitResponse, None), t);
     env_LookUpInode := fun _ t => ((None, Some ENOENT), t);
     env_GetInodeAttributes := fun _ t => ((None, Some ENOENT), t);
     env_OpenDir := fun req t =>
       ((Some {| OpenDirResponse_Handle := 7 |}, None), t);
     env_ReadDir := fun _ t =>
       ((Some {| ReadDirResponse_Data := data |}, None), t) |}.

Definition sample_init : bazilfuse.InitRequest :=
  {| bazilfuse.InitRequest_Header := sample_header |}.

Definition sample_open_dir : bazilfuse.OpenRequest :=
  {| bazilfuse.OpenRequest_Header := sample_header;
     bazilfuse.OpenRequest_Dir := true;
     bazilfuse.OpenRequest_Flags := 4 |}.

Definition sample_read_dir : bazilfuse.ReadRequest :=
  {| bazilfuse.ReadRequest_Header := sample_header;
     bazilfuse.ReadRequest_Dir := true;
     bazilfuse.ReadRequest_Handle := 7;
     bazilfuse.ReadRequest_Offset := 0;
     bazilfuse.ReadRequest_Size := 2 |}.

(** ** The reply a request is due *)

(** The wire attributes carry the size, mode, times, user and group of the
    attributes. *)
Definition same_attributes (wire : bazilfuse.Attr) (attr : InodeAttributes)
  : Prop :=
  bazilfuse.Attr_Size wire = InodeAttributes_Size attr /\
  bazilfuse.Attr_Mode wire = InodeAttributes_Mode attr /\
  bazilfuse.Attr_Atime wire = InodeAttributes_Atime attr /\
  bazilfuse.Attr_Mtime wire = InodeAttributes_Mtime attr /\
  bazilfuse.Attr_Crtime wire = InodeAttributes_Crtime attr /\
  bazilfuse.Attr_Uid wire = InodeAttributes_Uid attr /\
  bazilfuse.Attr_Gid wire = InodeAttributes_Gid attr.

Definition requested_init (typed : bazilfuse.InitRequest) : InitRequest :=
  {| InitRequest_Uid :=
       bazilfuse.Header_Uid (bazilfuse.InitRequest_Header typed);
     InitRequest_Gid :=
       bazilfuse.Header_Gid (bazilfuse.InitRequest_Header typed) |}.

Definition requested_opendir (typed : bazilfuse.OpenRequest) : OpenDirRequest :=
  {| OpenDirRequest_Inode :=
       bazilfuse.Header_Node (bazilfuse.OpenRequest_Header typed);
     OpenDirRequest_Flags := bazilfuse.OpenRequest_Flags typed |}.

(** The reply that the table of the specification (section 4.2) gives a
    request, read against the calls [evs] that were made for it: which call
    on the file system the request is due, with which fields, and which
    reply follows from the answer to that call and from the readings of the
    clock.  A validity duration is the expiration minus the reading, as
    [Time.Sub] computes it. *)
Definition correct_reply (fuseReq : bazilfuse.Request) (evs : list Event)
    (reply : Reply) : Prop :=
  match fuseReq with
  | bazilfuse.Init typed =>
      exists answer,
        fs_calls evs = [Ev (fs_Init (requested_init typed)) answer] /\
        reply = match snd answer with
                | Some err => Failure fuseReq err
                | None =>
                    Success fuseReq (bazilfuse.RInit bazilfuse.mkInitResponse)
                end
  | bazilfuse.Statfs _ =>
      fs_calls evs = [] /\
      reply = Success fuseReq (bazilfuse.RStatfs bazilfuse.mkStatfsResponse)
  | bazilfuse.Lookup typed =>
      exists answer,
        fs_calls evs = [Ev (fs_LookUpInode (lookup_request typed)) answer] /\
        match answer with
        | (_, Some err) => reply = Failure fuseReq err
        | (Some resp, None) =>
            exists now1 now2,
              clock_readings evs = [Ev clock_Now now1; Ev clock_Now now2] /\
              reply =
                Success fuseReq
                  (bazilfuse.RLookup
                     {| bazilfuse.LookupResponse_Node :=
                          LookUpInodeResponse_Child resp;
                        bazilfuse.LookupResponse_Generation :=
                          LookUpInodeResponse_Generation resp;
                        bazilfuse.LookupResponse_Attr :=
                          convertAttributes
                            (LookUpInodeResponse_Child resp)
                            (LookUpInodeResponse_Attributes resp);
                        bazilfuse.LookupResponse_AttrValid :=
                          Time_Sub
                            (LookUpInodeResponse_AttributesExpiration resp)
                            now1;
                        bazilfuse.LookupResponse_EntryValid :=
                          Time_Sub (LookUpInodeResponse_EntryExpiration resp)
                                   now2 |})
        | (None, None) => False
        end
  | bazilfuse.Getattr typed =>
      exists answer,
        fs_calls evs =
          [Ev (fs_GetInodeAttributes (getattr_request typed)) answer] /\
        match answer with
        | (_, Some err) => reply = Failure fuseReq err
        | (Some resp, None) =>
            exists now attr,
              clock_readings evs = [Ev clock_Now now] /\
              reply =
                Success fuseReq
                  (bazilfuse.RGetattr
                     {| bazilfuse.GetattrResponse_Attr := attr;
                        bazilfuse.GetattrResponse_AttrValid :=
                          Time_Sub
                            (GetInodeAttributesResponse_AttributesExpiration
                               resp)
                            now |}) /\
              same_attributes attr (GetInodeAttributesResponse_Attributes resp)
        | (None, None) => False
        end
  | bazilfuse.Open typed =>
      if bazilfuse.OpenRequest_Dir typed then
        exists answer,
          fs_calls evs = [Ev (fs_OpenDir (requested_opendir typed)) answer] /\
          match answer with
          | (_, Some err) => reply = Failure fuseReq err
          | (Some resp, None) =>
              reply =
                Success fuseReq
                  (bazilfuse.ROpen
                     {| bazilfuse.OpenResponse_Handle :=
                          OpenDirResponse_Handle resp |})
          | (None, None) => False
          end
      else fs_calls evs = [] /\ reply = Failure fuseReq ENOSYS
  | bazilfuse.Read typed =>
      if bazilfuse.ReadRequest_Dir typed then
        exists answer,
          fs_calls evs = [Ev (fs_ReadDir (readdir_request typed)) answer] /\
          match answer with
          | (_, Some err) => reply = Failure fuseReq err
          | (Some resp, None) =>
              reply =
                Success fuseReq
                  (bazilfuse.RRead
                     {| bazilfuse.ReadResponse_Data :=
                          ReadDirResponse_Data resp |})
          | (None, None) => False
          end
      else fs_calls evs = [] /\ reply = Failure fuseReq ENOSYS
  | bazilfuse.OtherRequest _ _ =>
      fs_calls evs = [] /\ reply = Failure fuseReq ENOSYS
  end.

(** What a derivation of [path] says, by the calls it covers. *)
Definition path_shape (p : Prog unit) (evs : list Event) (q : Prog unit)
  : Prop :=
  match evs with
  | [] => q = p
  | ev :: evs' =>
      match p with
      | Vis e k => exists x, ev = Ev e x /\ path (k x) evs' q
      | _ => False
      end
  end.

(** The sample connection served halfway: both requests read, the second
    goroutine done, [Serve] returned, the first goroutine not yet started. *)
Definition sample_system_midway : System Time :=
  let env := simulated (5 * Second) (2 * Second) 0 in
  let g1 := run env (handleFuseRequest (bazilfuse.Getattr sample_getattr)) 0 in
  mkSystem [] (Some None)
           [(sample_open_file, handleFuseRequest sample_open_file);
            (bazilfuse.Getattr sample_getattr, Ret tt)]
           (snd (fst g1))
           (map (pair 1%nat) (trace g1)).

(** A connection that delivers one GetAttributes and then nothing, served
    over the silent file system: the goroutine has panicked. *)
Definition silent_system : System Time :=
  mkSystem [] None
           [(bazilfuse.Getattr sample_getattr, Panic nil_dereference)] 0
           [ (0%nat, Ev (logger_Println
                           [LStr "Received:";
                            LReq (bazilfuse.Getattr sample_getattr)]) tt);
             (0%nat, Ev (fs_GetInodeAttributes (getattr_request sample_getattr))
                        (None, None)) ].

(** * Properties *)

(** ** The runs of the handler, case by case *)

Section Runs.

Context {S : Type} (env : Env S).

Lemma run_Lookup_ok typed s resp s1 now1 s2 now2 s3 :
  env_LookUpInode env (lookup_request typed) s = ((Some resp, None), s1) ->
  env_Now env s1 = (now1, s2) ->
  env_Now env s2 = (now2, s3) ->
  let fuseReq := bazilfuse.Lookup typed in
  let fuseResp :=
    bazilfuse.RLookup
      {| bazilfuse.LookupResponse_Node := LookUpInodeResponse_Child resp;
         bazilfuse.LookupResponse_Generation :=
           LookUpInodeResponse_Generation resp;
         bazilfuse.LookupResponse_Attr :=
           convertAttributes (LookUpInodeResponse_Child resp)
                             (LookUpInodeResponse_Attributes resp);
         bazilfuse.LookupResponse_AttrValid :=
           Time_Sub (LookUpInodeResponse_AttributesExpiration resp) now1;
         bazilfuse.LookupResponse_EntryValid :=
           Time_Sub (LookUpInodeResponse_EntryExpiration resp) now2 |} in
  run env (handleFuseRequest fuseReq) s =
  (Returned tt, s3,
   [ Ev (logger_Println [LStr "Received:"; LReq fuseReq]) tt;
     Ev (fs_LookUpInode (lookup_request typed)) (Some resp, None);
     Ev clock_Now now1;
     Ev clock_Now now2;
     Ev (logger_Print [LStr "Responding:"; LResp fuseResp]) tt;
     Ev (Respond fuseReq fuseResp) tt ]).
Proof.
  intros Hfs Hn1 Hn2. cbn. unfold lookup_request in Hfs.
  rewrite Hfs. cbn. rewrite Hn1. cbn. rewrite Hn2. reflexivity.
Qed.

Lemma run_Getattr_ok typed s resp s1 now1 s2 :
  env_GetInodeAttributes env (getattr_request typed) s =
    ((Some resp, None), s1) ->
  env_Now env s1 = (now1, s2) ->
  let fuseReq := bazilfuse.Getattr typed in
  let fuseResp :=
    bazilfuse.RGetattr
      {| bazilfuse.GetattrResponse_Attr :=
           convertAttributes
             (bazilfuse.Header_Node (bazilfuse.GetattrRequest_Header typed))
             (GetInodeAttributesResponse_Attributes resp);
         bazilfuse.GetattrResponse_AttrValid :=
           Time_Sub (GetInodeAttributesResponse_AttributesExpiration resp)
                    now1 |} in
  run env (handleFuseRequest fuseReq) s =
  (Returned tt, s2,
   [ Ev (logger_Println [LStr "Received:"; LReq fuseReq]) tt;
     Ev (fs_GetInodeAttributes (getattr_request typed)) (Some resp, None);
     Ev clock_Now now1;
     Ev (logger_Print [LStr "Responding:"; LResp fuseResp]) tt;
     Ev (Respond fuseReq fuseResp) tt ]).
Proof.
  intros Hfs Hn1. cbn. unfold getattr_request in Hfs.
  rewrite Hfs. cbn. rewrite Hn1. reflexivity.
Qed.

End Runs.

(** ** Exactly one reply *)

Ltac step_fs env E :=
  match goal with
  | |- context [env_Init env ?r ?s] =>
      destruct (env_Init env r s) as [[? [?|]] ?] eqn:E
  | |- context [env_LookUpInode env ?r ?s] =>
      destruct (env_LookUpInode env r s) as [[[?|] [?|]] ?] eqn:E
  | |- context [env_GetInodeAttributes env ?r ?s] =>
      destruct (env_GetInodeAttributes env r s) as [[[?|] [?|]] ?] eqn:E
  | |- context [env_OpenDir env ?r ?s] =>
      destruct (env_OpenDir env r s) as [[[?|] [?|]] ?] eqn:E
  | |- context [env_ReadDir env ?r ?s] =>
      destruct (env_ReadDir env r s) as [[[?|] [?|]] ?] eqn:E
  end.

Ltac step_clock env :=
  repeat match goal with
  | |- context [env_Now env ?s] => destruct (env_Now env s) as [? ?]; cbn
  end.

Ltac breach H E :=
  let C := fresh "C" in
  match type of E with
  | env_LookUpInode ?env ?r ?s = _ =>
      pose proof (contract_LookUpInode env H r s) as C
  | env_GetInodeAttributes ?env ?r ?s = _ =>
      pose proof (contract_GetInodeAttributes env H r s) as C
  | env_OpenDir ?env ?r ?s = _ =>
      pose proof (contract_OpenDir env H r s) as C
  | env_ReadDir ?env ?r ?s = _ =>
      pose proof (contract_ReadDir env H r s) as C
  end; rewrite E in C; discriminate C.

(** C1, as the code has it.  Whatever the kind of the request (Init,
    Statfs, Lookup, GetAttributes, Open, Read or any other), the handler
    calls [Respond] or [RespondError] at most once, and on the request it
    was given.  It calls one of them exactly once, and returns, whenever no
    call it made on the file system came back with a nil response and a nil
    error: so for every response and for every error.  When [LookUpInode],
    [GetInodeAttributes], [OpenDir] or [ReadDir] comes back with both nil,
    the handler panics and has called neither. *)
Theorem handleFuseRequest_replies_once_unless_nil
    {S : Type} (env : Env S) (fuseReq : bazilfuse.Request) (s : S) :
  let r := run env (handleFuseRequest fuseReq) s in
  (List.length (replies (trace r)) <= 1)%nat /\
  Forall (fun reply => reply_on reply = fuseReq) (replies (trace r)) /\
  (existsb nil_answer (trace r) = false ->
   outcome r = Returned tt /\
   List.length (replies (trace r)) = 1%nat /\
   map reply_on (replies (trace r)) = [fuseReq]) /\
  (existsb nil_answer (trace r) = true ->
   outcome r = Panicked nil_dereference /\
   replies (trace r) = []).
Proof.
  intros r; subst r.
  destruct fuseReq as [t|t|t|t|t|t|kind hdr]; cbn;
    try (destruct (bazilfuse.OpenRequest_Dir t); cbn);
    try (destruct (bazilfuse.ReadRequest_Dir t); cbn);
    try (step_fs env E; cbn); step_clock env;
    (split; [lia|split; [repeat constructor|split]]);
    intros Hnil; try discriminate Hnil; repeat split.
Qed.

Ltac simulated_contract :=
  split; intros ? ?; cbn; try reflexivity;
  match goal with |- context [String.eqb ?a ?b] => destruct (String.eqb a b) end;
  reflexivity.

(** A lookup that fails and a lookup that succeeds: one reply each. *)
Lemma handleFuseRequest_replies_once_unless_nil_witness :
  let env := simulated (5 * Second) (2 * Second) 0 in
  let missing := bazilfuse.Lookup (sample_lookup "missing") in
  let found := bazilfuse.Lookup (sample_lookup "a") in
  (outcome (run env (handleFuseRequest missing) 0) = Returned tt /\
   List.length (replies (trace (run env (handleFuseRequest missing) 0))) =
     1%nat /\
   map reply_on (replies (trace (run env (handleFuseRequest missing) 0))) =
     [missing]) /\
  (outcome (run env (handleFuseRequest found) 0) = Returned tt /\
   List.length (replies (trace (run env (handleFuseRequest found) 0))) =
     1%nat /\
   map reply_on (replies (trace (run env (handleFuseRequest found) 0))) =
     [found]).
Proof.
  split.
  - apply (handleFuseRequest_replies_once_unless_nil
             (simulated (5 * Second) (2 * Second) 0)
             (bazilfuse.Lookup (sample_lookup "missing")) 0).
    reflexivity.
  - apply (handleFuseRequest_replies_once_unless_nil
             (simulated (5 * Second) (2 * Second) 0)
             (bazilfuse.Lookup (sample_lookup "a")) 0).
    reflexivity.
Defined.

(** C1, as the specification words it, fails: a file system whose
    [GetInodeAttributes] returns a nil response and a nil error is taken to
    have succeeded; the handler panics on the response, and the request has
    had no reply. *)
Lemma handleFuseRequest_no_reply_counterexample :
  let r := run silent (handleFuseRequest (bazilfuse.Getattr sample_getattr)) 0 in
  fs_calls (trace r) =
    [Ev (fs_GetInodeAttributes (getattr_request sample_getattr)) (None, None)] /\
  outcome r = Panicked nil_dereference /\
  replies (trace r) = [] /\
  List.length (replies (trace r)) <> 1%nat.
Proof.
  cbv zeta. repeat split. discriminate.
Qed.

(** ** Validity durations *)

Lemma Time_Sub_fits (t u : Time) :
  minDuration <= t - u <= maxDuration -> Time_Sub t u = t - u.
Proof.
  intros [Hlo Hhi]. unfold Time_Sub.
  destruct (Z.ltb_spec (t - u) minDuration); [lia|].
  destruct (Z.ltb_spec maxDuration (t - u)); [lia|reflexivity].
Qed.

Lemma Time_Sub_negative (t u : Time) : t < u -> Time_Sub t u < 0.
Proof.
  intros Hlt. unfold Time_Sub.
  destruct (Z.ltb_spec (t - u) minDuration); [reflexivity|].
  destruct (Z.ltb_spec maxDuration (t - u)); [|lia].
  unfold maxDuration in *. lia.
Qed.

Lemma Time_Sub_antitone (t u u' : Time) :
  u <= u' -> Time_Sub t u' <= Time_Sub t u.
Proof.
  intros Hle. unfold Time_Sub, minDuration, maxDuration.
  destruct (Z.ltb_spec (t - u') (- 2 ^ 63));
    destruct (Z.ltb_spec (t - u) (- 2 ^ 63));
    destruct (Z.ltb_spec (2 ^ 63 - 1) (t - u'));
    destruct (Z.ltb_spec (2 ^ 63 - 1) (t - u)); lia.
Qed.

(** C2, as the code has it.  The validity durations of a Lookup reply and of
    a GetAttributes reply are the expiration minus the reading of the clock,
    as [Time.Sub] computes it: signed, and cut to the range of a duration.
    Nothing floors them at zero: an expiration before the reading gives a
    negative duration. *)
Theorem validity_is_signed_difference
    {S : Type} (env : Env S)
    (lookup : bazilfuse.LookupRequest) (sl sl1 sl2 sl3 : S)
    (lresp : LookUpInodeResponse) (lnow1 lnow2 : Time)
    (getattr : bazilfuse.GetattrRequest) (sg sg1 sg2 : S)
    (gresp : GetInodeAttributesResponse) (gnow : Time) :
  env_LookUpInode env (lookup_request lookup) sl = ((Some lresp, None), sl1) ->
  env_Now env sl1 = (lnow1, sl2) ->
  env_Now env sl2 = (lnow2, sl3) ->
  env_GetInodeAttributes env (getattr_request getattr) sg =
    ((Some gresp, None), sg1) ->
  env_Now env sg1 = (gnow, sg2) ->
  let rl := run env (handleFuseRequest (bazilfuse.Lookup lookup)) sl in
  let rg := run env (handleFuseRequest (bazilfuse.Getattr getattr)) sg in
  map attr_validity (replies (trace rl)) =
    [Some (Time_Sub (LookUpInodeResponse_AttributesExpiration lresp) lnow1)] /\
  map entry_validity (replies (trace rl)) =
    [Some (Time_Sub (LookUpInodeResponse_EntryExpiration lresp) lnow2)] /\
  map attr_validity (replies (trace rg)) =
    [Some (Time_Sub (GetInodeAttributesResponse_AttributesExpiration gresp)
                    gnow)] /\
  (forall expiration now : Time,
      minDuration <= expiration - now <= maxDuration ->
      Time_Sub expiration now = expiration - now) /\
  (forall expiration now : Time,
      expiration < now -> Time_Sub expiration now < 0).
Proof.
  intros Hl Hl1 Hl2 Hg Hg1 rl rg. subst rl rg.
  rewrite (run_Lookup_ok env _ _ _ _ _ _ _ _ Hl Hl1 Hl2).
  rewrite (run_Getattr_ok env _ _ _ _ _ _ Hg Hg1).
  cbn. repeat split; auto using Time_Sub_fits, Time_Sub_negative.
Qed.

Lemma validity_is_signed_difference_witness :
  let env := simulated (1 * Second) (2 * Second) 0 in
  let rl := run env (handleFuseRequest (bazilfuse.Lookup (sample_lookup "a"))) 0 in
  let rg := run env (handleFuseRequest (bazilfuse.Getattr sample_getattr)) 0 in
  map attr_validity (replies (trace rl)) = [Some (- Second)] /\
  map entry_validity (replies (trace rl)) = [Some (- Second)] /\
  map attr_validity (replies (trace rg)) = [Some (- Second)].
Proof.
  pose proof (validity_is_signed_difference
                (simulated (1 * Second) (2 * Second) 0)
                (sample_lookup "a") 0 _ _ _ _ _ _
                sample_getattr 0 _ _ _ _
                eq_refl eq_refl eq_refl eq_refl eq_refl) as H.
  cbv zeta in H. destruct H as (H1 & H2 & H3 & _).
  exact (conj H1 (conj H2 H3)).
Defined.

(** C2, as the specification words it, fails: with an expiration one second
    after the call and a file system that takes two seconds, the
    GetAttributes reply carries minus one second, where the floored value is
    zero. *)
Lemma validity_not_floored_counterexample :
  let env := simulated (1 * Second) (2 * Second) 0 in
  let rg := run env (handleFuseRequest (bazilfuse.Getattr sample_getattr)) 0 in
  map attr_validity (replies (trace rg)) = [Some (-1000000000)] /\
  floored_validity (0 + 1 * Second) (0 + 2 * Second) = 0 /\
  map attr_validity (replies (trace rg)) <>
    [Some (floored_validity (0 + 1 * Second) (0 + 2 * Second))].
Proof.
  cbv zeta. repeat split. discriminate.
Qed.

(** C3.  The reading of the clock that a validity duration is measured
    against is taken from the state the file system call left behind, that
    is after [LookUpInode] or [GetInodeAttributes] has returned, and not from
    the state in which the request arrived. *)
Theorem validity_measured_at_translation
    {S : Type} (env : Env S)
    (lookup : bazilfuse.LookupRequest) (sl sl1 : S)
    (lresp : LookUpInodeResponse)
    (getattr : bazilfuse.GetattrRequest) (sg sg1 : S)
    (gresp : GetInodeAttributesResponse) :
  env_LookUpInode env (lookup_request lookup) sl = ((Some lresp, None), sl1) ->
  env_GetInodeAttributes env (getattr_request getattr) sg =
    ((Some gresp, None), sg1) ->
  let rl := run env (handleFuseRequest (bazilfuse.Lookup lookup)) sl in
  let rg := run env (handleFuseRequest (bazilfuse.Getattr getattr)) sg in
  map attr_validity (replies (trace rl)) =
    [Some (Time_Sub (LookUpInodeResponse_AttributesExpiration lresp)
                    (fst (env_Now env sl1)))] /\
  map attr_validity (replies (trace rg)) =
    [Some (Time_Sub (GetInodeAttributesResponse_AttributesExpiration gresp)
                    (fst (env_Now env sg1)))] /\
  (exists before after,
      trace rl = before ++ Ev (fs_LookUpInode (lookup_request lookup))
                              (Some lresp, None)
                        :: Ev clock_Now (fst (env_Now env sl1)) :: after /\
      clock_readings before = []) /\
  (exists before after,
      trace rg = before ++ Ev (fs_GetInodeAttributes (getattr_request getattr))
                              (Some gresp, None)
                        :: Ev clock_Now (fst (env_Now env sg1)) :: after /\
      clock_readings before = []).
Proof.
  intros Hl Hg rl rg. subst rl rg.
  destruct (env_Now env sl1) as [lnow1 sl2] eqn:Hl1.
  destruct (env_Now env sl2) as [lnow2 sl3] eqn:Hl2.
  destruct (env_Now env sg1) as [gnow sg2] eqn:Hg1.
  rewrite (run_Lookup_ok env _ _ _ _ _ _ _ _ Hl Hl1 Hl2).
  rewrite (run_Getattr_ok env _ _ _ _ _ _ Hg Hg1).
  cbn. repeat split.
  - eexists [_], _. split; reflexivity.
  - eexists [_], _. split; reflexivity.
Qed.

(** The example of the specification: the request arrives when the clock
    shows T0 (here one thousand seconds), the file system takes two seconds
    and returns an expiration of T0 + 5s; the reply says three seconds. *)
Lemma validity_measured_at_translation_witness :
  let T0 := 1000 * Second in
  let env := simulated (5 * Second) (2 * Second) 0 in
  let rl := run env (handleFuseRequest (bazilfuse.Lookup (sample_lookup "a"))) T0 in
  let rg := run env (handleFuseRequest (bazilfuse.Getattr sample_getattr)) T0 in
  map attr_validity (replies (trace rl)) = [Some (3 * Second)] /\
  map attr_validity (replies (trace rg)) = [Some (3 * Second)].
Proof.
  pose proof (validity_measured_at_translation
                (simulated (5 * Second) (2 * Second) 0)
                (sample_lookup "a") (1000 * Second) _ _
                sample_getattr (1000 * Second) _ _
                eq_refl eq_refl) as H.
  cbv zeta in H. destruct H as (H1 & H2 & _).
  exact (conj H1 H2).
Defined.

(** ** Requests the relay does not support *)

(** C4.  An Open or a Read whose directory flag is unset is answered with
    ENOSYS, and the file system is never called for it. *)
Theorem file_request_not_supported
    {S : Type} (env : Env S) (fuseReq : bazilfuse.Request) (s : S) :
  file_request fuseReq = true ->
  let r := run env (handleFuseRequest fuseReq) s in
  outcome r = Returned tt /\
  replies (trace r) = [Failure fuseReq ENOSYS] /\
  fs_calls (trace r) = [].
Proof.
  intros Hfile r; subst r.
  destruct fuseReq as [t|t|t|t|t|t|kind hdr]; cbn in Hfile;
    try discriminate Hfile; cbn; rewrite Hfile; cbn; auto.
Qed.

Lemma file_request_not_supported_witness :
  let env := simulated (5 * Second) (2 * Second) 0 in
  (replies (trace (run env (handleFuseRequest sample_open_file) 0)) =
     [Failure sample_open_file ENOSYS] /\
   fs_calls (trace (run env (handleFuseRequest sample_open_file) 0)) = []) /\
  (replies (trace (run env (handleFuseRequest sample_read_file) 0)) =
     [Failure sample_read_file ENOSYS] /\
   fs_calls (trace (run env (handleFuseRequest sample_read_file) 0)) = []).
Proof.
  split.
  - apply (file_request_not_supported
             (simulated (5 * Second) (2 * Second) 0) sample_open_file 0).
    reflexivity.
  - apply (file_request_not_supported
             (simulated (5 * Second) (2 * Second) 0) sample_read_file 0).
    reflexivity.
Defined.

(** C5.  A request of any other kind is answered with ENOSYS; the handler
    logs that it does so, calls nothing on the file system, leaves its state
    alone, and returns rather than panics. *)
Theorem unrecognized_request_not_supported
    {S : Type} (env : Env S) (kind : string) (hdr : bazilfuse.Header) (s : S) :
  let fuseReq := bazilfuse.OtherRequest kind hdr in
  run env (handleFuseRequest fuseReq) s =
    (Returned tt, s,
     [ Ev (logger_Println [LStr "Received:"; LReq fuseReq]) tt;
       Ev (logger_Println [LStr "Unhandled type. Returning ENOSYS."]) tt;
       Ev (RespondError fuseReq ENOSYS) tt ]) /\
  replies (trace (run env (handleFuseRequest fuseReq) s)) =
    [Failure fuseReq ENOSYS] /\
  fs_calls (trace (run env (handleFuseRequest fuseReq) s)) = [] /\
  In (Ev (logger_Println [LStr "Unhandled type. Returning ENOSYS."]) tt)
     (log_lines (trace (run env (handleFuseRequest fuseReq) s))).
Proof.
  cbn. repeat split. right. left. reflexivity.
Qed.

(** ** The read loop *)

Lemma Serve_app_requests (reqs : list bazilfuse.Request) (c : list ReadResult) :
  Serve (map ReadOk reqs ++ c) = (reqs ++ fst (Serve c), snd (Serve c)).
Proof.
  induction reqs as [|fuseReq reqs IH]; cbn.
  - destruct (Serve c); reflexivity.
  - rewrite IH. reflexivity.
Qed.

(** C6.  When [ReadRequest] returns [io.EOF], after any number of requests,
    [Serve] returns nil.  When it returns any other error, [Serve] returns
    that error wrapped by the text that names the read: "Conn.ReadRequest: ".
    Either way the requests read before were each handed to a goroutine, in
    the order they were read, and nothing after the error is read. *)
Theorem Serve_returns
    (reqs : list bazilfuse.Request) (err : error) (rest : list ReadResult) :
  err <> io_EOF ->
  Serve (map ReadOk reqs ++ ReadErr io_EOF :: rest) = (reqs, Some None) /\
  Serve (map ReadOk reqs ++ ReadErr err :: rest) =
    (reqs, Some (Some (fmt_Errorf "Conn.ReadRequest: %v" err))).
Proof.
  intros Hne. rewrite !Serve_app_requests. cbn.
  destruct (error_eq_dec err io_EOF) as [Heq|_]; [contradiction|].
  cbn. rewrite !app_nil_r. split; reflexivity.
Qed.

Lemma Serve_returns_witness :
  let reqs := [sample_open_file; bazilfuse.Getattr sample_getattr] in
  Serve (map ReadOk reqs ++ ReadErr io_EOF :: [ReadOk sample_read_file]) =
    (reqs, Some None) /\
  Serve (map ReadOk reqs ++ ReadErr (Errno 5) :: [ReadOk sample_read_file]) =
    (reqs, Some (Some (fmt_Errorf "Conn.ReadRequest: %v" (Errno 5)))).
Proof.
  apply (Serve_returns [sample_open_file; bazilfuse.Getattr sample_getattr]
                       (Errno 5) [ReadOk sample_read_file]).
  discriminate.
Defined.

(** ** Errors of the file system *)

Ltac each_event :=
  repeat (intros [<-|H];
          [intros Herr; cbn in Herr; inversion Herr; subst; auto | revert H]);
  intros [].

(** C7.  When the call the handler makes on the file system ([Init],
    [LookUpInode], [GetInodeAttributes], [OpenDir] or [ReadDir]) returns an
    error, the handler answers the request with [RespondError] and that very
    error.  It builds no response: the clock is not read, and the only reply
    is the error, so that no converted attributes are sent. *)
Theorem provider_error_passed_through
    {S : Type} (env : Env S) (fuseReq : bazilfuse.Request) (s : S)
    (ev : Event) (err : error) :
  let r := run env (handleFuseRequest fuseReq) s in
  In ev (trace r) ->
  fs_error ev = Some err ->
  outcome r = Returned tt /\
  replies (trace r) = [Failure fuseReq err] /\
  clock_readings (trace r) = [] /\
  List.length (fs_calls (trace r)) = 1%nat.
Proof.
  intros r; subst r.
  destruct fuseReq as [t|t|t|t|t|t|kind hdr]; cbn.
  - step_fs env E; cbn; intros [<-|[<-|[<-|[<-|[]]]]] Herr;
      cbn in Herr; inversion Herr; subst; auto.
  - intros [<-|[<-|[<-|[]]]] Herr; discriminate Herr.
  - step_fs env E; cbn; step_clock env;
      each_event.
  - step_fs env E; cbn; step_clock env;
      each_event.
  - destruct (bazilfuse.OpenRequest_Dir t); cbn;
      [step_fs env E; cbn|];
      each_event.
  - destruct (bazilfuse.ReadRequest_Dir t); cbn;
      [step_fs env E; cbn|];
      each_event.
  - intros [<-|[<-|[<-|[]]]] Herr; discriminate Herr.
Qed.

(** The example of the specification: [LookUpInode] fails for the name
    "missing" under parent 1. *)
Lemma provider_error_passed_through_witness :
  let fuseReq := bazilfuse.Lookup (sample_lookup "missing") in
  let r := run (simulated (5 * Second) (2 * Second) 0)
               (handleFuseRequest fuseReq) 0 in
  outcome r = Returned tt /\
  replies (trace r) = [Failure fuseReq ENOENT] /\
  clock_readings (trace r) = [] /\
  List.length (fs_calls (trace r)) = 1%nat.
Proof.
  apply (provider_error_passed_through
           (simulated (5 * Second) (2 * Second) 0)
           (bazilfuse.Lookup (sample_lookup "missing")) 0
           (Ev (fs_LookUpInode (lookup_request (sample_lookup "missing")))
               (None, Some ENOENT))
           ENOENT).
  - cbn. right. left. reflexivity.
  - reflexivity.
Defined.

(** ** The Lookup reply *)

(** C8.  After a successful [LookUpInode] the one reply is a Lookup response
    whose node is the child's inode, whose generation is the response's,
    whose attributes are the response's (the inode is the child's; size,
    mode, the three times, user and group are copied), and whose two validity
    durations are the two expirations minus the readings of the clock. *)
Theorem Lookup_reply_contents
    {S : Type} (env : Env S) (typed : bazilfuse.LookupRequest)
    (s s1 s2 s3 : S) (resp : LookUpInodeResponse) (now1 now2 : Time) :
  env_LookUpInode env
    {| LookUpInodeRequest_Parent :=
         bazilfuse.Header_Node (bazilfuse.LookupRequest_Header typed);
       LookUpInodeRequest_Name := bazilfuse.LookupRequest_Name typed |} s =
    ((Some resp, None), s1) ->
  env_Now env s1 = (now1, s2) ->
  env_Now env s2 = (now2, s3) ->
  let r := run env (handleFuseRequest (bazilfuse.Lookup typed)) s in
  let attributes := LookUpInodeResponse_Attributes resp in
  outcome r = Returned tt /\
  replies (trace r) =
    [ Success (bazilfuse.Lookup typed)
        (bazilfuse.RLookup
           {| bazilfuse.LookupResponse_Node := LookUpInodeResponse_Child resp;
              bazilfuse.LookupResponse_Generation :=
                LookUpInodeResponse_Generation resp;
              bazilfuse.LookupResponse_Attr :=
                {| bazilfuse.Attr_Inode := LookUpInodeResponse_Child resp;
                   bazilfuse.Attr_Size := InodeAttributes_Size attributes;
                   bazilfuse.Attr_Mode := InodeAttributes_Mode attributes;
                   bazilfuse.Attr_Atime := InodeAttributes_Atime attributes;
                   bazilfuse.Attr_Mtime := InodeAttributes_Mtime attributes;
                   bazilfuse.Attr_Crtime := InodeAttributes_Crtime attributes;
                   bazilfuse.Attr_Uid := InodeAttributes_Uid attributes;
                   bazilfuse.Attr_Gid := InodeAttributes_Gid attributes |};
              bazilfuse.LookupResponse_AttrValid :=
                Time_Sub (LookUpInodeResponse_AttributesExpiration resp) now1;
              bazilfuse.LookupResponse_EntryValid :=
                Time_Sub (LookUpInodeResponse_EntryExpiration resp) now2 |}) ].
Proof.
  intros Hfs Hn1 Hn2 r attributes. subst r attributes.
  rewrite (run_Lookup_ok env typed s resp s1 now1 s2 now2 s3 Hfs Hn1 Hn2).
  split; reflexivity.
Qed.

Lemma Lookup_reply_contents_witness :
  let r := run (simulated (5 * Second) (2 * Second) 0)
               (handleFuseRequest (bazilfuse.Lookup (sample_lookup "a"))) 0 in
  outcome r = Returned tt /\
  replies (trace r) =
    [ Success (bazilfuse.Lookup (sample_lookup "a"))
        (bazilfuse.RLookup
           {| bazilfuse.LookupResponse_Node := 2;
              bazilfuse.LookupResponse_Generation := 1;
              bazilfuse.LookupResponse_Attr :=
                {| bazilfuse.Attr_Inode := 2;
                   bazilfuse.Attr_Size := 4096;
                   bazilfuse.Attr_Mode := 493;
                   bazilfuse.Attr_Atime := 11;
                   bazilfuse.Attr_Mtime := 12;
                   bazilfuse.Attr_Crtime := 13;
                   bazilfuse.Attr_Uid := 501;
                   bazilfuse.Attr_Gid := 20 |};
              bazilfuse.LookupResponse_AttrValid := 3000000000;
              bazilfuse.LookupResponse_EntryValid := 3000000000 |}) ].
Proof.
  exact (Lookup_reply_contents
           (simulated (5 * Second) (2 * Second) 0) (sample_lookup "a")
           0 _ _ _ _ _ _ eq_refl eq_refl eq_refl).
Defined.

(** C10.  A Lookup reply takes two readings of the clock, one after the
    other: the attribute validity is measured against the first and the
    entry validity against the second, which the clock gives in the state
    the first reading left.  When the clock has advanced in between, the
    entry validity of equal expirations comes out shorter. *)
Theorem Lookup_reads_clock_twice
    {S : Type} (env : Env S) (typed : bazilfuse.LookupRequest)
    (s s1 s2 s3 : S) (resp : LookUpInodeResponse) (now1 now2 : Time) :
  env_LookUpInode env (lookup_request typed) s = ((Some resp, None), s1) ->
  env_Now env s1 = (now1, s2) ->
  env_Now env s2 = (now2, s3) ->
  let r := run env (handleFuseRequest (bazilfuse.Lookup typed)) s in
  let attr_expiration := LookUpInodeResponse_AttributesExpiration resp in
  let entry_expiration := LookUpInodeResponse_EntryExpiration resp in
  clock_readings (trace r) = [Ev clock_Now now1; Ev clock_Now now2] /\
  map attr_validity (replies (trace r)) =
    [Some (Time_Sub attr_expiration now1)] /\
  map entry_validity (replies (trace r)) =
    [Some (Time_Sub entry_expiration now2)] /\
  (now1 <= now2 ->
   Time_Sub entry_expiration now2 <= Time_Sub entry_expiration now1) /\
  (now1 < now2 ->
   minDuration <= entry_expiration - now2 ->
   entry_expiration - now1 <= maxDuration ->
   Time_Sub entry_expiration now2 < Time_Sub entry_expiration now1).
Proof.
  intros Hfs Hn1 Hn2 r aexp eexp. subst r aexp eexp.
  rewrite (run_Lookup_ok env typed s resp s1 now1 s2 now2 s3 Hfs Hn1 Hn2).
  cbn. repeat split.
  - apply Time_Sub_antitone.
  - intros Hlt Hlo Hhi. rewrite !Time_Sub_fits;
      unfold minDuration, maxDuration in *; lia.
Qed.

(** A clock that advances by one second at each reading. *)
Lemma Lookup_reads_clock_twice_witness :
  let r := run (simulated (5 * Second) (2 * Second) (1 * Second))
               (handleFuseRequest (bazilfuse.Lookup (sample_lookup "a"))) 0 in
  clock_readings (trace r) =
    [Ev clock_Now (2 * Second); Ev clock_Now (3 * Second)] /\
  map attr_validity (replies (trace r)) = [Some (3 * Second)] /\
  map entry_validity (replies (trace r)) = [Some (2 * Second)].
Proof.
  pose proof (Lookup_reads_clock_twice
                (simulated (5 * Second) (2 * Second) (1 * Second))
                (sample_lookup "a") 0 _ _ _ _ _ _
                eq_refl eq_refl eq_refl) as H.
  cbv zeta in H. destruct H as (H1 & H2 & H3 & _).
  exact (conj H1 (conj H2 H3)).
Defined.

(** ** Goroutines *)

Lemma handleFuseRequest_owes (fuseReq : bazilfuse.Request) :
  owes fuseReq (handleFuseRequest fuseReq) 1.
Proof.
  assert (Hreply_err : forall err,
             owes fuseReq (call (RespondError fuseReq err)) 1).
  { intros err. eapply owes_reply; [reflexivity|reflexivity|].
    intros []. apply owes_Ret. }
  assert (Hreply_ok : forall resp,
             owes fuseReq (call (Respond fuseReq resp)) 1).
  { intros resp. eapply owes_reply; [reflexivity|reflexivity|].
    intros []. apply owes_Ret. }
  assert (Hlog : forall (e : Effect unit) p,
             effect_reply e = None -> owes fuseReq p 1 ->
             owes fuseReq (call e ;; p) 1).
  { intros e p He Hp. cbn. apply owes_call; [exact He|]. intros _ _. exact Hp. }
  unfold handleFuseRequest. apply Hlog; [reflexivity|].
  destruct fuseReq as [t|t|t|t|t|t|kind hdr].
  - cbn. apply owes_call; [reflexivity|].
    intros [resp [err|]] _; (apply Hlog; [reflexivity|auto]).
  - (apply Hlog; [reflexivity|auto]).
  - cbn. apply owes_call; [reflexivity|].
    intros [[resp|] [err|]] Hx; try discriminate Hx;
      try ((apply Hlog; [reflexivity|auto])).
    cbn. apply owes_call; [reflexivity|]. intros now1 _.
    apply owes_call; [reflexivity|]. intros now2 _.
    (apply Hlog; [reflexivity|auto]).
  - cbn. apply owes_call; [reflexivity|].
    intros [[resp|] [err|]] Hx; try discriminate Hx;
      try ((apply Hlog; [reflexivity|auto])).
    cbn. apply owes_call; [reflexivity|]. intros now1 _.
    (apply Hlog; [reflexivity|auto]).
  - destruct (bazilfuse.OpenRequest_Dir t); cbn [negb];
      [|(apply Hlog; [reflexivity|auto])].
    cbn. apply owes_call; [reflexivity|].
    intros [[resp|] [err|]] Hx; try discriminate Hx;
      (apply Hlog; [reflexivity|auto]).
  - destruct (bazilfuse.ReadRequest_Dir t); cbn [negb];
      [|(apply Hlog; [reflexivity|auto])].
    cbn. apply owes_call; [reflexivity|].
    intros [[resp|] [err|]] Hx; try discriminate Hx;
      (apply Hlog; [reflexivity|auto]).
  - (apply Hlog; [reflexivity|auto]).
Qed.

Lemma contract_well_answered {S : Type} (env : Env S) :
  provider_contract env ->
  forall (X : Type) (e : Effect X) (s : S),
    well_answered e (fst (perform env e s)) = true.
Proof.
  intros [Hl Hg Ho Hr] X e s. destruct e; cbn; auto.
Qed.

Lemma replies_app (tr1 tr2 : list Event) :
  replies (tr1 ++ tr2) = replies tr1 ++ replies tr2.
Proof.
  induction tr1 as [|ev tr1 IH]; cbn; [reflexivity|].
  destruct (reply_of ev); cbn; rewrite IH; reflexivity.
Qed.

Lemma reply_of_Ev {X : Type} (e : Effect X) (x : X) :
  reply_of (Ev e x) = effect_reply e.
Proof. destruct e; reflexivity. Qed.

(** A program that owes [n] replies, run without interruption, returns
    having made them. *)
Lemma owes_run {S : Type} (env : Env S) (on : bazilfuse.Request) :
  provider_contract env ->
  forall p n, owes on p n ->
  forall s,
    outcome (run env p s) = Returned tt /\
    List.length (replies (trace (run env p s))) = n /\
    Forall (fun r => reply_on r = on) (replies (trace (run env p s))).
Proof.
  intros Hc p n Howes.
  induction Howes as [|X e k r n He Hon Hk IH|X e k n He Hk IH]; intros s.
  - cbn. auto.
  - cbn. destruct (perform env e s) as [x s1] eqn:Hp.
    specialize (IH x s1). destruct (run env (k x) s1) as [[o s2] tr].
    unfold outcome, trace in *. cbn [fst snd replies] in *.
    rewrite reply_of_Ev, He. cbn.
    destruct IH as (Ho & Hlen & Hall). repeat split; auto.
  - cbn. destruct (perform env e s) as [x s1] eqn:Hp.
    pose proof (contract_well_answered env Hc X e s) as Hx.
    rewrite Hp in Hx. cbn in Hx.
    specialize (IH x Hx s1). destruct (run env (k x) s1) as [[o s2] tr].
    unfold outcome, trace in *. cbn [fst snd replies] in *.
    rewrite reply_of_Ev, He. exact IH.
Qed.

Lemma owes_inv (on : bazilfuse.Request) (p : Prog unit) (n : nat) :
  owes on p n -> owes_shape on p n.
Proof.
  destruct 1 as [|X e k r n He Hon Hk|X e k n He Hk]; cbn.
  - reflexivity.
  - rewrite He. split; [exact Hon|]. exists n. split; [reflexivity|exact Hk].
  - rewrite He. exact Hk.
Qed.

Lemma events_of_app (i : nat) (tr1 tr2 : list (nat * Event)) :
  events_of i (tr1 ++ tr2) = events_of i tr1 ++ events_of i tr2.
Proof. unfold events_of. rewrite filter_app, map_app. reflexivity. Qed.

Lemma events_of_tagged (i j : nat) (evs : list Event) :
  events_of i (map (pair j) evs) = if Nat.eqb j i then evs else [].
Proof.
  unfold events_of. induction evs as [|ev evs IH]; cbn.
  - destruct (Nat.eqb j i); reflexivity.
  - destruct (Nat.eqb j i) eqn:E; cbn; rewrite IH; reflexivity.
Qed.

Lemma events_of_fresh (i n : nat) (tr : list (nat * Event)) :
  Forall (fun p => (fst p < n)%nat) tr -> (n <= i)%nat -> events_of i tr = [].
Proof.
  intros Hall Hle. unfold events_of.
  induction Hall as [|[j ev] tr Hj Hall IH]; cbn; [reflexivity|].
  cbn in Hj. destruct (Nat.eqb_spec j i); [lia|exact IH].
Qed.

Lemma reply_order_app (tr1 tr2 : list (nat * Event)) :
  reply_order (tr1 ++ tr2) = reply_order tr1 ++ reply_order tr2.
Proof. unfold reply_order. rewrite filter_app, map_app. reflexivity. Qed.

Lemma reply_order_tagged (i : nat) (evs : list Event) :
  reply_order (map (pair i) evs) = repeat i (List.length (replies evs)).
Proof.
  unfold reply_order, is_reply. induction evs as [|ev evs IH]; cbn.
  - reflexivity.
  - destruct (reply_of ev); cbn; rewrite IH; reflexivity.
Qed.

Lemma nth_error_at {A : Type} (before after : list A) (a : A) :
  nth_error (before ++ a :: after) (List.length before) = Some a.
Proof. induction before as [|b before IH]; cbn; [reflexivity|exact IH]. Qed.

Lemma nth_error_off {A : Type} (before after : list A) (a b : A) (i : nat) :
  i <> List.length before ->
  nth_error (before ++ a :: after) i = nth_error (before ++ b :: after) i.
Proof.
  revert i. induction before as [|x before IH]; intros [|i] Hi; cbn in *;
    try reflexivity; try congruence.
  apply IH. congruence.
Qed.

Lemma reaches_trans {S : Type} (env : Env S) (sys1 sys2 sys3 : System S) :
  reaches env sys1 sys2 -> reaches env sys2 sys3 -> reaches env sys1 sys3.
Proof.
  intros H12 H23. induction H23 as [|sys2 sys3 sys4 H23 IH Hstep].
  - exact H12.
  - eapply reaches_step; [apply IH; exact H12|exact Hstep].
Qed.

(** The scheduler may let one goroutine run to its end: the system then
    moves as [run] says. *)
Lemma goroutine_runs {S : Type} (env : Env S) c serve before on after :
  forall (p : Prog unit) (s : S) (tr : list (nat * Event)),
    outcome (run env p s) = Returned tt ->
    reaches env
      (mkSystem c serve (before ++ (on, p) :: after) s tr)
      (mkSystem c serve (before ++ (on, Ret tt) :: after)
                (snd (fst (run env p s)))
                (tr ++ map (pair (List.length before)) (trace (run env p s)))).
Proof.
  induction p as [[]|why|X e k IH]; intros s tr Hout.
  - cbn. rewrite app_nil_r. apply reaches_refl.
  - discriminate Hout.
  - cbn in *. destruct (perform env e s) as [x s1] eqn:Hp.
    specialize (IH x s1 (tr ++ [(List.length before, Ev e x)])).
    destruct (run env (k x) s1) as [[o s2] tr2] eqn:Hrun.
    unfold outcome, trace in *. cbn [fst snd map] in *.
    eapply reaches_trans.
    + eapply reaches_step; [apply reaches_refl|].
      apply step_goroutine. exact Hp.
    + rewrite <- app_assoc in IH. cbn [app] in IH. apply IH. exact Hout.
Qed.

Lemma Serve_turn_Go (r : ReadResult) (fuseReq : bazilfuse.Request) :
  Serve_turn r = Go fuseReq -> r = ReadOk fuseReq.
Proof.
  destruct r as [req|err]; cbn.
  - intros H. inversion H. reflexivity.
  - destruct (error_eq_dec err io_EOF); discriminate.
Qed.

Lemma invariant_boot {S : Type} (c : list ReadResult) (s : S) :
  invariant c (boot c s).
Proof.
  repeat split; cbn.
  - constructor.
  - intros [|i] task H; discriminate H.
Qed.

Lemma invariant_step {S : Type} (env : Env S) (c : list ReadResult)
    (sys sys' : System S) :
  provider_contract env ->
  invariant c sys -> step env sys sys' -> invariant c sys'.
Proof.
  intros Hc (Htransport & Htags & Htasks) Hstep.
  destruct Hstep as [r c' tasks s tr fuseReq Hturn
                    |r c' tasks s tr err Hturn
                    |c' serve before on X e k after s tr x s1 Hp];
    unfold invariant, transport_ok in *; cbn [sys_serve sys_tasks sys_conn
                                              sys_trace sys_state] in *.
  - apply Serve_turn_Go in Hturn. subst r. repeat split.
    + rewrite Htransport, !map_app, <- app_assoc. reflexivity.
    + eapply Forall_impl; [|exact Htags].
      intros p Hp. cbv beta in Hp. rewrite length_app. cbn. lia.
    + intros i task Hnth.
      destruct (Nat.lt_ge_cases i (List.length tasks)) as [Hlt|Hge].
      * rewrite nth_error_app1 in Hnth by exact Hlt. auto.
      * rewrite nth_error_app2 in Hnth by exact Hge.
        destruct (i - List.length tasks)%nat as [|j] eqn:Hj;
          [|destruct j; discriminate Hnth].
        cbn in Hnth. inversion Hnth; subst task. exists 1%nat. cbn [fst snd].
        rewrite (events_of_fresh i _ tr Htags Hge). cbn.
        repeat split; [apply handleFuseRequest_owes|constructor].
  - repeat split; auto. exists r. split; assumption.
  - repeat split.
    + rewrite !map_app in *. exact Htransport.
    + rewrite length_app in *. cbn [List.length] in *.
      apply Forall_app. split; [exact Htags|].
      constructor; [cbn; lia|constructor].
    + intros i task Hnth.
      destruct (Nat.eq_dec i (List.length before)) as [->|Hne].
      * rewrite nth_error_at in Hnth. inversion Hnth; subst task.
        destruct (Htasks _ _ (nth_error_at before after (on, Vis e k)))
          as (n & Howes & Hlen & Hall).
        cbn [fst snd] in *. apply owes_inv in Howes. cbn in Howes.
        unfold task_ok. cbn [fst snd].
        rewrite events_of_app, replies_app.
        change [(List.length before, Ev e x)]
          with (map (pair (List.length before)) [Ev e x]).
        rewrite events_of_tagged, Nat.eqb_refl.
        cbn [replies]. rewrite reply_of_Ev.
        destruct (effect_reply e) as [r|] eqn:He.
        -- destruct Howes as (Hon & m & -> & Hk).
           exists m. cbn [fst snd]. rewrite length_app. cbn.
           repeat split; [apply Hk|lia|].
           apply Forall_app. split; [exact Hall|]. constructor; auto.
        -- exists n. cbn [fst snd]. rewrite app_nil_r.
           repeat split; auto. apply Howes.
           pose proof (contract_well_answered env Hc X e s) as Hx.
           rewrite Hp in Hx. exact Hx.
      * rewrite (nth_error_off before after _ (on, Vis e k) i Hne) in Hnth.
        destruct (Htasks _ _ Hnth) as (n & Howes & Hlen & Hall).
        exists n. rewrite events_of_app.
        change [(List.length before, Ev e x)]
          with (map (pair (List.length before)) [Ev e x]).
        rewrite events_of_tagged.
        destruct (Nat.eqb_spec (List.length before) i) as [Heq|_];
          [congruence|].
        rewrite app_nil_r. auto.
Qed.

Lemma invariant_reaches {S : Type} (env : Env S) (c : list ReadResult)
    (s : S) (sys : System S) :
  provider_contract env ->
  reaches env (boot c s) sys -> invariant c sys.
Proof.
  intros Hc Hreach. remember (boot c s) as sys0 eqn:E.
  induction Hreach as [|sys0 sys1 sys2 Hreach IH Hstep].
  - subst. apply invariant_boot.
  - eapply invariant_step; [exact Hc|apply IH; exact E|exact Hstep].
Qed.

(** The goroutines that have not finished can be let run, one after the
    other, until all have. *)
Lemma goroutines_can_finish {S : Type} (env : Env S) c serve :
  provider_contract env ->
  forall todo done (s : S) tr,
    (forall task, In task todo -> exists n, owes (fst task) (snd task) n) ->
    exists s' tr',
      reaches env
        (mkSystem c serve (done ++ todo) s tr)
        (mkSystem c serve (done ++ map (fun t => (fst t, Ret tt)) todo) s' tr').
Proof.
  intros Hc todo.
  induction todo as [|[on p] todo IH]; intros done s tr Howes.
  - exists s, tr. apply reaches_refl.
  - destruct (Howes (on, p) (or_introl eq_refl)) as (n & Hn). cbn in Hn.
    destruct (owes_run env on Hc p n Hn s) as (Hout & _).
    pose proof (goroutine_runs env c serve done on todo p s tr Hout) as Hrun.
    destruct (IH (done ++ [(on, Ret tt)])
                 (snd (fst (run env p s)))
                 (tr ++ map (pair (List.length done)) (trace (run env p s))))
      as (s' & tr' & Hrest).
    { intros task Hin. apply Howes. right. exact Hin. }
    exists s', tr'. rewrite <- !app_assoc in Hrest. cbn [app] in Hrest.
    eapply reaches_trans; [exact Hrun|exact Hrest].
Qed.

(** Two requests read one after the other: the scheduler may let the first
    goroutine reply first, or the second. *)
Lemma two_requests_either_order {S : Type} (env : Env S)
    (r1 r2 : bazilfuse.Request) (rest : list ReadResult) (s : S) :
  provider_contract env ->
  (exists sys, reaches env (boot (ReadOk r1 :: ReadOk r2 :: rest) s) sys /\
               reply_order (sys_trace sys) = [0; 1]%nat) /\
  (exists sys, reaches env (boot (ReadOk r1 :: ReadOk r2 :: rest) s) sys /\
               reply_order (sys_trace sys) = [1; 0]%nat).
Proof.
  intros Hc.
  assert (Hstart : reaches env (boot (ReadOk r1 :: ReadOk r2 :: rest) s)
                     (mkSystem rest None
                        [(r1, handleFuseRequest r1); (r2, handleFuseRequest r2)]
                        s [])).
  { eapply reaches_step; [eapply reaches_step; [apply reaches_refl|]|].
    - apply (step_Serve_go env (ReadOk r1) _ [] s [] r1). reflexivity.
    - apply (step_Serve_go env (ReadOk r2) _ [(r1, handleFuseRequest r1)]
                           s [] r2).
      reflexivity. }
  pose proof (fun r => owes_run env r Hc _ _ (handleFuseRequest_owes r))
    as Hrun.
  split.
  - destruct (Hrun r1 s) as (Hout1 & Hlen1 & _).
    pose proof (goroutine_runs env rest None [] r1
                  [(r2, handleFuseRequest r2)] _ s [] Hout1) as H1.
    cbn [app List.length] in H1.
    set (s1 := snd (fst (run env (handleFuseRequest r1) s))) in *.
    destruct (Hrun r2 s1) as (Hout2 & Hlen2 & _).
    pose proof (goroutine_runs env rest None [(r1, Ret tt)] r2 [] _ s1
                  (map (pair 0%nat) (trace (run env (handleFuseRequest r1) s)))
                  Hout2) as H2.
    cbn [app List.length] in H2.
    eexists. split.
    + eapply reaches_trans; [exact Hstart|].
      eapply reaches_trans; [exact H1|exact H2].
    + cbn [sys_trace]. rewrite reply_order_app, !reply_order_tagged.
      rewrite Hlen1, Hlen2. reflexivity.
  - destruct (Hrun r2 s) as (Hout2 & Hlen2 & _).
    pose proof (goroutine_runs env rest None [(r1, handleFuseRequest r1)] r2
                  [] _ s [] Hout2) as H2.
    cbn [app List.length] in H2.
    set (s2 := snd (fst (run env (handleFuseRequest r2) s))) in *.
    destruct (Hrun r1 s2) as (Hout1 & Hlen1 & _).
    pose proof (goroutine_runs env rest None [] r1 [(r2, Ret tt)] _ s2
                  (map (pair 1%nat) (trace (run env (handleFuseRequest r2) s)))
                  Hout1) as H1.
    cbn [app List.length] in H1.
    eexists. split.
    + eapply reaches_trans; [exact Hstart|].
      eapply reaches_trans; [exact H2|exact H1].
    + cbn [sys_trace]. rewrite reply_order_app, !reply_order_tagged.
      rewrite Hlen1, Hlen2. reflexivity.
Qed.

Lemma owes_not_panicked (task : bazilfuse.Request * Prog unit) (n : nat) :
  owes (fst task) (snd task) n -> panicked task = false.
Proof.
  intros H. apply owes_inv in H. unfold panicked.
  destruct (snd task); [reflexivity|contradiction|reflexivity].
Qed.

Lemma owes_finished (task : bazilfuse.Request * Prog unit) (n : nat) :
  owes (fst task) (snd task) n -> finished task = true -> n = 0%nat.
Proof.
  intros H Hfin. apply owes_inv in H. unfold finished in Hfin.
  destruct (snd task); [exact H|discriminate|discriminate].
Qed.

Lemma path_snoc (p : Prog unit) (evs : list Event)
    (X : Type) (e : Effect X) (k : X -> Prog unit) (x : X) :
  path p evs (Vis e k) -> path p (evs ++ [Ev e x]) (k x).
Proof.
  intros H. remember (Vis e k) as q eqn:Hq.
  induction H as [p|Y e' k' y evs q H IH].
  - subst p. cbn. apply path_call. apply path_here.
  - cbn. apply path_call. apply IH. exact Hq.
Qed.

Lemma follows_step {S : Type} (env : Env S) (sys sys' : System S) :
  step env sys sys' ->
  (Forall (fun p => (fst p < List.length (sys_tasks sys))%nat) (sys_trace sys) /\
   forall i task, nth_error (sys_tasks sys) i = Some task ->
                  path (handleFuseRequest (fst task))
                       (events_of i (sys_trace sys)) (snd task)) ->
  (Forall (fun p => (fst p < List.length (sys_tasks sys'))%nat)
          (sys_trace sys') /\
   forall i task, nth_error (sys_tasks sys') i = Some task ->
                  path (handleFuseRequest (fst task))
                       (events_of i (sys_trace sys')) (snd task)).
Proof.
  intros Hstep (Htags & Htasks).
  destruct Hstep as [r c' tasks s tr fuseReq Hturn
                    |r c' tasks s tr err Hturn
                    |c' serve before on X e k after s tr x s1 Hp];
    cbn [sys_tasks sys_trace] in *.
  - split.
    + eapply Forall_impl; [|exact Htags].
      intros p Hlt. cbv beta in Hlt. rewrite length_app. cbn. lia.
    + intros i task Hnth.
      destruct (Nat.lt_ge_cases i (List.length tasks)) as [Hlt|Hge].
      * rewrite nth_error_app1 in Hnth by exact Hlt. auto.
      * rewrite nth_error_app2 in Hnth by exact Hge.
        destruct (i - List.length tasks)%nat as [|j] eqn:Hj;
          [|destruct j; discriminate Hnth].
        cbn in Hnth. inversion Hnth; subst task. cbn [fst snd].
        rewrite (events_of_fresh i _ tr Htags Hge). apply path_here.
  - split; assumption.
  - split.
    + rewrite length_app in *. cbn [List.length] in *.
      apply Forall_app. split; [exact Htags|].
      constructor; [cbn; lia|constructor].
    + intros i task Hnth. rewrite events_of_app.
      change [(List.length before, Ev e x)]
        with (map (pair (List.length before)) [Ev e x]).
      rewrite events_of_tagged.
      destruct (Nat.eq_dec i (List.length before)) as [->|Hne].
      * rewrite nth_error_at in Hnth. inversion Hnth; subst task.
        rewrite Nat.eqb_refl. cbn [fst snd]. apply path_snoc.
        apply (Htasks _ _ (nth_error_at before after (on, Vis e k))).
      * rewrite (nth_error_off before after _ (on, Vis e k) i Hne) in Hnth.
        destruct (Nat.eqb_spec (List.length before) i) as [Heq|_];
          [congruence|].
        rewrite app_nil_r. auto.
Qed.

Lemma path_inv (p : Prog unit) (evs : list Event) (q : Prog unit) :
  path p evs q -> path_shape p evs q.
Proof.
  destruct 1 as [p|X e k x evs q H]; cbn.
  - destruct p; reflexivity.
  - exists x. split; [reflexivity|exact H].
Qed.

Ltac walk_path H :=
  apply path_inv in H;
  match type of H with
  | path_shape _ ?evs _ => destruct evs as [|? ?]; cbn in H
  end;
  [ subst | first [contradiction | destruct H as (? & -> & H)] ].

Ltac walk :=
  repeat
    match goal with
    | x : FsReturn _ |- _ => destruct x as [[?|] [?|]]; cbn in *
    | x : unit |- _ => destruct x
    | H : path _ _ _ |- _ => walk_path H; cbn in *
    end.

Ltac settle :=
  repeat
    (cbn;
     match goal with
    | |- _ /\ _ => split
    | |- (_ <= _)%nat => lia
    | |- Forall _ _ => repeat constructor
    | |- _ -> _ => let H := fresh in intros H; try discriminate H
    | |- exists _, _ => eexists
    | |- same_attributes _ _ => unfold same_attributes; cbn
     | |- _ = _ => reflexivity
     end).

Lemma handler_path_facts (fuseReq : bazilfuse.Request) (evs : list Event)
    (p : Prog unit) :
  path (handleFuseRequest fuseReq) evs p ->
  (List.length (replies evs) <= 1)%nat /\
  Forall (fun reply => reply_on reply = fuseReq) (replies evs) /\
  (finished (fuseReq, p) = true ->
   exists reply, replies evs = [reply] /\ correct_reply fuseReq evs reply) /\
  (finished (fuseReq, p) = false -> replies evs = []) /\
  (panicked (fuseReq, p) = true -> existsb nil_answer evs = true).
Proof.
  intros H.
  destruct fuseReq as [t|t|t|t|[hdr [|] flags]|[hdr [|] h o sz]|kind hdr];
    cbn in H; walk; settle.
Qed.

Lemma reaches_cons {S : Type} (env : Env S) (sys1 sys2 sys3 : System S) :
  step env sys1 sys2 -> reaches env sys2 sys3 -> reaches env sys1 sys3.
Proof.
  intros Hstep Hrest. eapply reaches_trans; [|exact Hrest].
  eapply reaches_step; [apply reaches_refl|exact Hstep].
Qed.

Lemma follows_reaches {S : Type} (env : Env S) (c : list ReadResult) (s : S)
    (sys : System S) :
  reaches env (boot c s) sys ->
  forall i task,
    nth_error (sys_tasks sys) i = Some task ->
    path (handleFuseRequest (fst task)) (events_of i (sys_trace sys))
         (snd task).
Proof.
  intros Hreach.
  cut (Forall (fun p => (fst p < List.length (sys_tasks sys))%nat)
              (sys_trace sys) /\
       forall i task, nth_error (sys_tasks sys) i = Some task ->
                      path (handleFuseRequest (fst task))
                           (events_of i (sys_trace sys)) (snd task)).
  { intros [_ H]. exact H. }
  remember (boot c s) as sys0 eqn:E.
  induction Hreach as [|sys0 sys1 sys2 Hreach IH Hstep].
  - subst. cbn. split; [constructor|].
    intros [|i] task H; discriminate H.
  - eapply follows_step; [exact Hstep|apply IH; exact E].
Qed.

Lemma transport_reaches {S : Type} (env : Env S) (c : list ReadResult) (s : S)
    (sys : System S) :
  reaches env (boot c s) sys -> transport_ok c sys.
Proof.
  intros Hreach. remember (boot c s) as sys0 eqn:E.
  induction Hreach as [|sys0 sys1 sys2 Hreach IH Hstep].
  - subst. reflexivity.
  - specialize (IH E).
    destruct Hstep as [r c' tasks s0 tr fuseReq Hturn
                      |r c' tasks s0 tr err Hturn
                      |c' serve before on X e k after s0 tr x s1 Hp];
      unfold transport_ok in *; cbn [sys_serve sys_tasks sys_conn] in *.
    + apply Serve_turn_Go in Hturn. subst r.
      rewrite IH, !map_app, <- app_assoc. reflexivity.
    + exists r. split; assumption.
    + rewrite !map_app in *. exact IH.
Qed.

(** C9, as the code has it.  [Serve] alone reads the connection, one
    request after the other: the goroutines' requests are, in order, the
    requests the connection delivered first, and once [Serve] has returned
    they are those the function [Serve] lists.  Each request read is handed
    to a goroutine of its own, which runs the handler on it and which the
    scheduler may advance at any time.  Whatever the schedule and the file
    system, a goroutine replies at most once and on its own request; one
    that has finished has replied exactly once, with the reply its request
    is due for the answers it got; one that has not finished has not
    replied; and one that has panicked got a nil response with a nil error.
    When the file system always returns a response or an error, no
    goroutine panics, every schedule can be continued until all goroutines
    have finished, and of two requests read in turn either may be replied
    to first. *)
Theorem goroutines_reply_once_in_any_order
    {S : Type} (env : Env S) (c : list ReadResult) (s : S) (sys : System S)
    (r1 r2 : bazilfuse.Request) :
  reaches env (boot c s) sys ->
  let started := map fst (sys_tasks sys) in
  (exists rest, c = map ReadOk started ++ rest) /\
  (forall err, sys_serve sys = Some err -> Serve c = (started, Some err)) /\
  (forall i task,
      nth_error (sys_tasks sys) i = Some task ->
      let mine := events_of i (sys_trace sys) in
      path (handleFuseRequest (fst task)) mine (snd task) /\
      (List.length (replies mine) <= 1)%nat /\
      Forall (fun r => reply_on r = fst task) (replies mine) /\
      (finished task = true ->
       exists reply,
         replies mine = [reply] /\ correct_reply (fst task) mine reply) /\
      (finished task = false -> replies mine = []) /\
      (panicked task = true -> existsb nil_answer mine = true)) /\
  (provider_contract env ->
   (forall task, In task (sys_tasks sys) -> panicked task = false) /\
   (exists sys',
       reaches env sys sys' /\
       map fst (sys_tasks sys') = started /\
       forallb finished (sys_tasks sys') = true) /\
   (exists sys01,
       reaches env (boot (ReadOk r1 :: ReadOk r2 :: c) s) sys01 /\
       reply_order (sys_trace sys01) = [0; 1]%nat) /\
   (exists sys10,
       reaches env (boot (ReadOk r1 :: ReadOk r2 :: c) s) sys10 /\
       reply_order (sys_trace sys10) = [1; 0]%nat)).
Proof.
  intros Hreach started.
  pose proof (transport_reaches env c s sys Hreach) as Htransport.
  unfold transport_ok in Htransport. fold started in Htransport.
  split; [|split; [|split]].
  - destruct (sys_serve sys) as [err|].
    + destruct Htransport as (r & -> & _). eauto.
    + eauto.
  - intros err Hserve. rewrite Hserve in Htransport.
    destruct Htransport as (r & -> & Hturn).
    rewrite Serve_app_requests. cbn. rewrite Hturn. cbn.
    rewrite app_nil_r. reflexivity.
  - intros i [fuseReq p] Hnth mine. subst mine.
    pose proof (follows_reaches env c s sys Hreach i _ Hnth) as Hpath.
    cbn [fst snd] in *.
    destruct (handler_path_facts fuseReq _ p Hpath)
      as (Hone & Hon & Hdone & Hnot & Hpanic).
    repeat split; assumption.
  - intros Hc.
    pose proof (invariant_reaches env c s sys Hc Hreach)
      as (_ & _ & Htasks).
    split; [|split; [|split]].
    + intros task Hin. apply In_nth_error in Hin. destruct Hin as (i & Hi).
      destruct (Htasks i task Hi) as (n & Howes & _).
      eapply owes_not_panicked. exact Howes.
    + destruct sys as [conn serve tasks s0 tr]. cbn [sys_tasks] in *.
      destruct (goroutines_can_finish env conn serve Hc tasks [] s0 tr)
        as (s' & tr' & Hfin).
      { intros task Hin. apply In_nth_error in Hin. destruct Hin as (i & Hi).
        destruct (Htasks i task Hi) as (n & Howes & _). eauto. }
      cbn [app] in Hfin. eexists. split; [exact Hfin|].
      cbn [sys_tasks]. split.
      * subst started. rewrite map_map. reflexivity.
      * clear. induction tasks as [|t tasks IH]; cbn; auto.
    + apply (two_requests_either_order env r1 r2 c s Hc).
    + apply (two_requests_either_order env r1 r2 c s Hc).
Qed.

Lemma sample_system_reached :
  reaches (simulated (5 * Second) (2 * Second) 0) (boot sample_conn 0)
          sample_system.
Proof.
  set (env := simulated (5 * Second) (2 * Second) 0).
  eapply reaches_step.
  - eapply reaches_trans.
    + eapply reaches_step; [eapply reaches_step; [apply reaches_refl|]|].
      * apply (step_Serve_go env (ReadOk sample_open_file) _ [] 0 []
                             sample_open_file).
        reflexivity.
      * apply (step_Serve_go env (ReadOk (bazilfuse.Getattr sample_getattr))
                 _ [(sample_open_file, handleFuseRequest sample_open_file)]
                 0 [] (bazilfuse.Getattr sample_getattr)).
        reflexivity.
    + eapply reaches_trans.
      * apply (goroutine_runs env [ReadErr io_EOF] None
                 [(sample_open_file, handleFuseRequest sample_open_file)]
                 (bazilfuse.Getattr sample_getattr) []
                 (handleFuseRequest (bazilfuse.Getattr sample_getattr))
                 0 []).
        reflexivity.
      * apply (goroutine_runs env [ReadErr io_EOF] None []
                 sample_open_file
                 [(bazilfuse.Getattr sample_getattr, Ret tt)]
                 (handleFuseRequest sample_open_file)).
        reflexivity.
  - apply (step_Serve_return env (ReadErr io_EOF) [] _ _ _ None).
    reflexivity.
Defined.

(** The sample system: the second goroutine replied before the first,
    [Serve] has returned nil after starting both, and each goroutine has
    made the one reply its request is due. *)
Lemma goroutines_reply_once_in_any_order_witness :
  reply_order (sys_trace sample_system) = [1; 0]%nat /\
  Serve sample_conn =
    ([sample_open_file; bazilfuse.Getattr sample_getattr], Some None) /\
  (forall i task,
      nth_error (sys_tasks sample_system) i = Some task ->
      finished task = true ->
      exists reply,
        replies (events_of i (sys_trace sample_system)) = [reply] /\
        correct_reply (fst task) (events_of i (sys_trace sample_system))
                      reply).
Proof.
  pose proof (goroutines_reply_once_in_any_order
                (simulated (5 * Second) (2 * Second) 0)
                sample_conn 0 sample_system
                sample_open_file (bazilfuse.Getattr sample_getattr)
                sample_system_reached) as H.
  destruct H as (_ & Hserve & Hreplies & _).
  split; [reflexivity|]. split.
  - apply (Hserve None). reflexivity.
  - intros i task Hnth Hdone.
    destruct (Hreplies i task Hnth) as (_ & _ & _ & H & _).
    exact (H Hdone).
Defined.

(** C9, as the specification words it, fails: over a file system whose
    [GetInodeAttributes] returns a nil response and a nil error, the
    goroutine of a GetAttributes request panics without a reply, and no
    schedule can take the system any further. *)
Lemma goroutine_never_replies_counterexample :
  reaches silent (boot [ReadOk (bazilfuse.Getattr sample_getattr)] 0)
          silent_system /\
  nth_error (sys_tasks silent_system) 0 =
    Some (bazilfuse.Getattr sample_getattr, Panic nil_dereference) /\
  replies (events_of 0 (sys_trace silent_system)) = [] /\
  (forall sys', ~ step silent silent_system sys').
Proof.
  split; [|split; [reflexivity|split; [reflexivity|]]].
  - eapply reaches_cons.
    { apply (step_Serve_go silent (ReadOk (bazilfuse.Getattr sample_getattr))
                           [] [] 0 [] (bazilfuse.Getattr sample_getattr)).
      reflexivity. }
    cbn.
    eapply reaches_cons.
    { eapply (step_goroutine silent [] None [] _ _ _ _ []). reflexivity. }
    cbn.
    eapply reaches_cons.
    { eapply (step_goroutine silent [] None [] _ _ _ _ []). reflexivity. }
    cbn. apply reaches_refl.
  - intros sys' Hstep. unfold silent_system in Hstep.
    inversion Hstep as [| |c' serve before on X e k after s0 tr x s1 Hp Heq].
    destruct before as [|task [|task' before]]; discriminate.
Qed.

(** ** The model at work *)

Example Statfs_trace :
  let fuseReq :=
    bazilfuse.Statfs {| bazilfuse.StatfsRequest_Header := sample_header |} in
  run (simulated (5 * Second) (2 * Second) 0) (handleFuseRequest fuseReq) 7 =
  (Returned tt, 7,
   [ Ev (logger_Println [LStr "Received:"; LReq fuseReq]) tt;
     Ev (logger_Println
           [LStr "Responding:";
            LResp (bazilfuse.RStatfs bazilfuse.mkStatfsResponse)]) tt;
     Ev (Respond fuseReq (bazilfuse.RStatfs bazilfuse.mkStatfsResponse)) tt ]).
Proof. reflexivity. Qed.

Example Lookup_missing_trace :
  let fuseReq := bazilfuse.Lookup (sample_lookup "missing") in
  run (simulated (5 * Second) (2 * Second) 0) (handleFuseRequest fuseReq) 0 =
  (Returned tt, 2 * Second,
   [ Ev (logger_Println [LStr "Received:"; LReq fuseReq]) tt;
     Ev (fs_LookUpInode {| LookUpInodeRequest_Parent := 1;
                           LookUpInodeRequest_Name := "missing" |})
        (None, Some ENOENT);
     Ev (logger_Print [LStr "Responding:"; LErr ENOENT]) tt;
     Ev (RespondError fuseReq ENOENT) tt ]).
Proof. reflexivity. Qed.

(** A file system that breaks the contract: the handler panics before it
    replies. *)
Example nil_response_panics :
  let env :=
    {| env_Now := fun t : Time => (t, t);
       env_Init := fun _ t => ((None, None), t);
       env_LookUpInode := fun _ t => ((None, None), t);
       env_GetInodeAttributes := fun _ t => ((None, None), t);
       env_OpenDir := fun _ t => ((None, None), t);
       env_ReadDir := fun _ t => ((None, None), t) |} in
  let r := run env (handleFuseRequest (bazilfuse.Getattr sample_getattr)) 0 in
  outcome r = Panicked nil_dereference /\ replies (trace r) = [].
Proof. split; reflexivity. Qed.

Example Time_Sub_saturates :
  Time_Sub (2 ^ 63) 0 = maxDuration /\ Time_Sub 0 (2 ^ 63 + 1) = minDuration.
Proof. split; reflexivity. Qed.

Example Serve_blocked :
  Serve [ReadOk sample_open_file] = ([sample_open_file], None).
Proof. reflexivity. Qed.

(** * Further properties of the handler *)

(** X1.  A Statfs request is answered by the relay itself: the reply is the
    empty statistics response, whatever the file system and the clock would
    do; neither is called, and their state is left as it was. *)
Theorem Statfs_answered_directly
    {S : Type} (env : Env S) (typed : bazilfuse.StatfsRequest) (s : S) :
  let fuseReq := bazilfuse.Statfs typed in
  let r := run env (handleFuseRequest fuseReq) s in
  outcome r = Returned tt /\
  replies (trace r) =
    [Success fuseReq (bazilfuse.RStatfs bazilfuse.mkStatfsResponse)] /\
  fs_calls (trace r) = [] /\
  clock_readings (trace r) = [] /\
  snd (fst r) = s.
Proof. cbn. repeat split. Qed.

(** X2.  An Init request calls [Init] once, with the user and group of the
    request's header.  The reply depends on the error alone: the error if
    there is one, the empty acknowledgment otherwise, even when [Init]
    returned a nil response; the handler never panics and never reads the
    clock. *)
Theorem Init_reply_depends_on_error_only
    {S : Type} (env : Env S) (typed : bazilfuse.InitRequest) (s : S) :
  let fuseReq := bazilfuse.Init typed in
  let req :=
    {| InitRequest_Uid :=
         bazilfuse.Header_Uid (bazilfuse.InitRequest_Header typed);
       InitRequest_Gid :=
         bazilfuse.Header_Gid (bazilfuse.InitRequest_Header typed) |} in
  let answer := fst (env_Init env req s) in
  let r := run env (handleFuseRequest fuseReq) s in
  outcome r = Returned tt /\
  replies (trace r) =
    [ match snd answer with
      | Some err => Failure fuseReq err
      | None => Success fuseReq (bazilfuse.RInit bazilfuse.mkInitResponse)
      end ] /\
  fs_calls (trace r) = [Ev (fs_Init req) answer] /\
  clock_readings (trace r) = [] /\
  snd (fst r) = snd (env_Init env req s).
Proof.
  cbn. destruct (env_Init env _ s) as [[resp [err|]] s1]; cbn; repeat split.
Qed.

(** X3.  After a successful [GetInodeAttributes] the one reply is a
    GetAttributes response that carries the size, mode, times, user and
    group of the response's attributes, and one validity duration, measured
    against the one reading of the clock.  (The inode of the wire attributes
    is [req.Inode] as the handler reads it after the call; nothing is said
    of it here.) *)
Theorem Getattr_reply_contents
    {S : Type} (env : Env S) (typed : bazilfuse.GetattrRequest)
    (s s1 s2 : S) (resp : GetInodeAttributesResponse) (now : Time) :
  env_GetInodeAttributes env
    {| GetInodeAttributesRequest_Inode :=
         bazilfuse.Header_Node (bazilfuse.GetattrRequest_Header typed) |} s =
    ((Some resp, None), s1) ->
  env_Now env s1 = (now, s2) ->
  let r := run env (handleFuseRequest (bazilfuse.Getattr typed)) s in
  let attributes := GetInodeAttributesResponse_Attributes resp in
  outcome r = Returned tt /\
  (exists wire,
      replies (trace r) =
        [ Success (bazilfuse.Getattr typed)
            (bazilfuse.RGetattr
               {| bazilfuse.GetattrResponse_Attr := wire;
                  bazilfuse.GetattrResponse_AttrValid :=
                    Time_Sub
                      (GetInodeAttributesResponse_AttributesExpiration resp)
                      now |}) ] /\
      bazilfuse.Attr_Size wire = InodeAttributes_Size attributes /\
      bazilfuse.Attr_Mode wire = InodeAttributes_Mode attributes /\
      bazilfuse.Attr_Atime wire = InodeAttributes_Atime attributes /\
      bazilfuse.Attr_Mtime wire = InodeAttributes_Mtime attributes /\
      bazilfuse.Attr_Crtime wire = InodeAttributes_Crtime attributes /\
      bazilfuse.Attr_Uid wire = InodeAttributes_Uid attributes /\
      bazilfuse.Attr_Gid wire = InodeAttributes_Gid attributes) /\
  clock_readings (trace r) = [Ev clock_Now now] /\
  snd (fst r) = s2.
Proof.
  intros Hfs Hnow r attributes. subst r attributes.
  rewrite (run_Getattr_ok env typed s resp s1 now s2 Hfs Hnow).
  split; [reflexivity|]. split; [|split; reflexivity].
  eexists. split; [reflexivity|]. cbn. repeat split.
Qed.

Lemma Getattr_reply_contents_witness :
  let r := run (simulated (5 * Second) (2 * Second) 0)
               (handleFuseRequest (bazilfuse.Getattr sample_getattr)) 0 in
  outcome r = Returned tt /\
  (exists wire,
      replies (trace r) =
        [ Success (bazilfuse.Getattr sample_getattr)
            (bazilfuse.RGetattr
               {| bazilfuse.GetattrResponse_Attr := wire;
                  bazilfuse.GetattrResponse_AttrValid := 3000000000 |}) ] /\
      bazilfuse.Attr_Size wire = 4096 /\
      bazilfuse.Attr_Mode wire = 493 /\
      bazilfuse.Attr_Atime wire = 11 /\
      bazilfuse.Attr_Mtime wire = 12 /\
      bazilfuse.Attr_Crtime wire = 13 /\
      bazilfuse.Attr_Uid wire = 501 /\
      bazilfuse.Attr_Gid wire = 20) /\
  clock_readings (trace r) = [Ev clock_Now 2000000000] /\
  snd (fst r) = 2000000000.
Proof.
  exact (Getattr_reply_contents
           (simulated (5 * Second) (2 * Second) 0) sample_getattr
           0 _ _ _ _ eq_refl eq_refl).
Defined.

(** X4.  An Open for a directory calls [OpenDir] once, with the inode and
    the flags of the request; on success the reply carries the handle the
    file system returned, and the clock is not read. *)
Theorem OpenDir_reply_contents
    {S : Type} (env : Env S) (typed : bazilfuse.OpenRequest)
    (s s1 : S) (resp : OpenDirResponse) :
  bazilfuse.OpenRequest_Dir typed = true ->
  env_OpenDir env
    {| OpenDirRequest_Inode :=
         bazilfuse.Header_Node (bazilfuse.OpenRequest_Header typed);
       OpenDirRequest_Flags := bazilfuse.OpenRequest_Flags typed |} s =
    ((Some resp, None), s1) ->
  let r := run env (handleFuseRequest (bazilfuse.Open typed)) s in
  outcome r = Returned tt /\
  replies (trace r) =
    [ Success (bazilfuse.Open typed)
        (bazilfuse.ROpen
           {| bazilfuse.OpenResponse_Handle := OpenDirResponse_Handle resp |}) ]
  /\
  fs_calls (trace r) =
    [ Ev (fs_OpenDir
            {| OpenDirRequest_Inode :=
                 bazilfuse.Header_Node (bazilfuse.OpenRequest_Header typed);
               OpenDirRequest_Flags := bazilfuse.OpenRequest_Flags typed |})
         (Some resp, None) ] /\
  clock_readings (trace r) = [] /\
  snd (fst r) = s1.
Proof.
  intros Hdir Hfs r. subst r. cbn. rewrite Hdir. cbn. rewrite Hfs. cbn.
  repeat split.
Qed.

Lemma OpenDir_reply_contents_witness :
  let r := run (listing [1; 2; 3])
               (handleFuseRequest (bazilfuse.Open sample_open_dir)) 0 in
  outcome r = Returned tt /\
  replies (trace r) =
    [ Success (bazilfuse.Open sample_open_dir)
        (bazilfuse.ROpen {| bazilfuse.OpenResponse_Handle := 7 |}) ] /\
  fs_calls (trace r) =
    [ Ev (fs_OpenDir {| OpenDirRequest_Inode := 1; OpenDirRequest_Flags := 4 |})
         (Some {| OpenDirResponse_Handle := 7 |}, None) ] /\
  clock_readings (trace r) = [] /\
  snd (fst r) = 0.
Proof.
  exact (OpenDir_reply_contents (listing [1; 2; 3]) sample_open_dir 0 _ _
                                eq_refl eq_refl).
Defined.

(** X5.  A Read for a directory calls [ReadDir] once, with the inode,
    handle, offset and size of the request; on success the reply carries
    the bytes the file system returned as they are: the handler does not
    cut them to the size asked for. *)
Theorem ReadDir_reply_contents
    {S : Type} (env : Env S) (typed : bazilfuse.ReadRequest)
    (s s1 : S) (resp : ReadDirResponse) :
  bazilfuse.ReadRequest_Dir typed = true ->
  env_ReadDir env
    {| ReadDirRequest_Inode :=
         bazilfuse.Header_Node (bazilfuse.ReadRequest_Header typed);
       ReadDirRequest_Handle := bazilfuse.ReadRequest_Handle typed;
       ReadDirRequest_Offset := bazilfuse.ReadRequest_Offset typed;
       ReadDirRequest_Size := bazilfuse.ReadRequest_Size typed |} s =
    ((Some resp, None), s1) ->
  let r := run env (handleFuseRequest (bazilfuse.Read typed)) s in
  outcome r = Returned tt /\
  replies (trace r) =
    [ Success (bazilfuse.Read typed)
        (bazilfuse.RRead
           {| bazilfuse.ReadResponse_Data := ReadDirResponse_Data resp |}) ] /\
  fs_calls (trace r) =
    [ Ev (fs_ReadDir
            {| ReadDirRequest_Inode :=
                 bazilfuse.Header_Node (bazilfuse.ReadRequest_Header typed);
               ReadDirRequest_Handle := bazilfuse.ReadRequest_Handle typed;
               ReadDirRequest_Offset := bazilfuse.ReadRequest_Offset typed;
               ReadDirRequest_Size := bazilfuse.ReadRequest_Size typed |})
         (Some resp, None) ] /\
  clock_readings (trace r) = [] /\
  snd (fst r) = s1.
Proof.
  intros Hdir Hfs r. subst r. cbn. rewrite Hdir. cbn. rewrite Hfs. cbn.
  repeat split.
Qed.

(** Two bytes are asked for; the file system returns three, and three are
    sent. *)
Lemma ReadDir_reply_contents_witness :
  let r := run (listing [1; 2; 3])
               (handleFuseRequest (bazilfuse.Read sample_read_dir)) 0 in
  outcome r = Returned tt /\
  replies (trace r) =
    [ Success (bazilfuse.Read sample_read_dir)
        (bazilfuse.RRead {| bazilfuse.ReadResponse_Data := [1; 2; 3] |}) ] /\
  fs_calls (trace r) =
    [ Ev (fs_ReadDir {| ReadDirRequest_Inode := 1;
                        ReadDirRequest_Handle := 7;
                        ReadDirRequest_Offset := 0;
                        ReadDirRequest_Size := 2 |})
         (Some {| ReadDirResponse_Data := [1; 2; 3] |}, None) ] /\
  clock_readings (trace r) = [] /\
  snd (fst r) = 0.
Proof.
  exact (ReadDir_reply_contents (listing [1; 2; 3]) sample_read_dir 0 _ _
                                eq_refl eq_refl).
Defined.

(** X6.  When [LookUpInode], [GetInodeAttributes], [OpenDir] or [ReadDir]
    returns a nil response together with a nil error, the handler panics on
    the response it dereferences: the request gets no reply at all, and the
    clock is not read. *)
Theorem nil_response_is_fatal
    {S : Type} (env : Env S) (fuseReq : bazilfuse.Request) (s : S)
    (ev : Event) :
  let r := run env (handleFuseRequest fuseReq) s in
  In ev (trace r) ->
  nil_answer ev = true ->
  outcome r = Panicked nil_dereference /\
  replies (trace r) = [] /\
  clock_readings (trace r) = [].
Proof.
  intros r; subst r.
  destruct fuseReq as [t|t|t|t|t|t|kind hdr]; cbn.
  - step_fs env E; cbn; intros [<-|[<-|[<-|[<-|[]]]]] Hnil;
      discriminate Hnil.
  - intros [<-|[<-|[<-|[]]]] Hnil; discriminate Hnil.
  - step_fs env E; cbn; step_clock env;
      repeat (intros [<-|H]; [intros Hnil; try discriminate Hnil; auto
                             | revert H]);
      intros [].
  - step_fs env E; cbn; step_clock env;
      repeat (intros [<-|H]; [intros Hnil; try discriminate Hnil; auto
                             | revert H]);
      intros [].
  - destruct (bazilfuse.OpenRequest_Dir t); cbn;
      [step_fs env E; cbn|];
      repeat (intros [<-|H]; [intros Hnil; try discriminate Hnil; auto
                             | revert H]);
      intros [].
  - destruct (bazilfuse.ReadRequest_Dir t); cbn;
      [step_fs env E; cbn|];
      repeat (intros [<-|H]; [intros Hnil; try discriminate Hnil; auto
                             | revert H]);
      intros [].
  - intros [<-|[<-|[<-|[]]]] Hnil; discriminate Hnil.
Qed.

Lemma nil_response_is_fatal_witness :
  let r := run silent (handleFuseRequest (bazilfuse.Read sample_read_dir)) 0 in
  outcome r = Panicked nil_dereference /\
  replies (trace r) = [] /\
  clock_readings (trace r) = [].
Proof.
  apply (nil_response_is_fatal
           silent (bazilfuse.Read sample_read_dir) 0
           (Ev (fs_ReadDir (readdir_request sample_read_dir)) (None, None))).
  - cbn. right. left. reflexivity.
  - reflexivity.
Defined.

Ltac ends_with_logged_reply :=
  first
    [ exists []; eexists _, _; split; [reflexivity|]
    | eexists [_], _, _; split; [reflexivity|]
    | eexists [_; _], _, _; split; [reflexivity|]
    | eexists [_; _; _], _, _; split; [reflexivity|]
    | eexists [_; _; _; _], _, _; split; [reflexivity|] ];
  split; reflexivity.

(** X7.  Whatever the request, the file system and the clock do, the
    handler first logs the request, calls the file system at most once and
    replies at most once; it returns exactly when it has replied; and its
    reply is on the request it was given, is the last call it makes, and
    comes right after a call on the logger. *)
Theorem handler_discipline
    {S : Type} (env : Env S) (fuseReq : bazilfuse.Request) (s : S) :
  let r := run env (handleFuseRequest fuseReq) s in
  hd_error (trace r) =
    Some (Ev (logger_Println [LStr "Received:"; LReq fuseReq]) tt) /\
  (List.length (fs_calls (trace r)) <= 1)%nat /\
  (List.length (replies (trace r)) <= 1)%nat /\
  (outcome r = Returned tt <-> List.length (replies (trace r)) = 1%nat) /\
  (forall reply,
      In reply (replies (trace r)) ->
      reply_on reply = fuseReq /\
      exists before log last,
        trace r = before ++ [log; last] /\
        is_log log = true /\
        reply_of last = Some reply).
Proof.
  intros r; subst r.
  assert (Hiff_yes : Returned tt = Returned tt <-> 1%nat = 1%nat)
    by (split; reflexivity).
  assert (Hiff_no : forall why : string,
             @Panicked unit why = Returned tt <-> 0%nat = 1%nat)
    by (intros why; split; discriminate).
  destruct fuseReq as [t|t|t|t|t|t|kind hdr]; cbn;
    try (destruct (bazilfuse.OpenRequest_Dir t); cbn);
    try (destruct (bazilfuse.ReadRequest_Dir t); cbn);
    try (step_fs env E; cbn); step_clock env;
    (split; [|split; [|split; [|split]]];
     [ reflexivity | lia | lia | auto
     | first [ intros reply [<-|[]]; split;
               [reflexivity|ends_with_logged_reply]
             | intros reply [] ] ]).
Qed.

(** X8.  The clock is read once for each validity duration that is sent,
    and never otherwise: twice when the reply is a Lookup response, once
    when it is a GetAttributes response, and not at all when the reply is
    an error or any other response, or when there is no reply. *)
Theorem clock_read_once_per_validity
    {S : Type} (env : Env S) (fuseReq : bazilfuse.Request) (s : S) :
  let r := run env (handleFuseRequest fuseReq) s in
  List.length (clock_readings (trace r)) =
  list_sum (map validities (replies (trace r))).
Proof.
  intros r; subst r.
  destruct fuseReq as [t|t|t|t|t|t|kind hdr]; cbn;
    try (destruct (bazilfuse.OpenRequest_Dir t); cbn);
    try (destruct (bazilfuse.ReadRequest_Dir t); cbn);
    try (step_fs env E; cbn); step_clock env; reflexivity.
Qed.

Lemma Time_Sub_bounds (t u : Time) :
  minDuration <= Time_Sub t u <= maxDuration.
Proof.
  unfold Time_Sub, minDuration, maxDuration.
  destruct (Z.ltb_spec (t - u) (- 2 ^ 63)); [lia|].
  destruct (Z.ltb_spec (2 ^ 63 - 1) (t - u)); lia.
Qed.

(** X9.  A validity duration that is sent always fits the 64 bits of a
    duration, however far apart the expiration and the reading of the clock
    are. *)
Theorem validity_fits_a_duration
    {S : Type} (env : Env S) (fuseReq : bazilfuse.Request) (s : S)
    (reply : Reply) (d : Duration) :
  let r := run env (handleFuseRequest fuseReq) s in
  In reply (replies (trace r)) ->
  attr_validity reply = Some d \/ entry_validity reply = Some d ->
  minDuration <= d <= maxDuration.
Proof.
  intros r; subst r.
  destruct fuseReq as [t|t|t|t|t|t|kind hdr]; cbn;
    try (destruct (bazilfuse.OpenRequest_Dir t); cbn);
    try (destruct (bazilfuse.ReadRequest_Dir t); cbn);
    try (step_fs env E; cbn); step_clock env;
    (intros [<-|[]] || intros []); cbn;
    intros [H|H]; inversion H; subst; apply Time_Sub_bounds.
Qed.

(** An expiration further from the reading than a duration can say. *)
Lemma validity_fits_a_duration_witness :
  let r := run (simulated (2 ^ 64) 0 0)
               (handleFuseRequest (bazilfuse.Getattr sample_getattr)) 0 in
  map attr_validity (replies (trace r)) = [Some maxDuration] /\
  minDuration <= maxDuration <= maxDuration.
Proof.
  split; [reflexivity|].
  apply (validity_fits_a_duration
           (simulated (2 ^ 64) 0 0) (bazilfuse.Getattr sample_getattr) 0
           (Success (bazilfuse.Getattr sample_getattr)
              (bazilfuse.RGetattr
                 {| bazilfuse.GetattrResponse_Attr :=
                      convertAttributes 1 sample_attributes;
                    bazilfuse.GetattrResponse_AttrValid := maxDuration |}))
           maxDuration).
  - cbn. left. reflexivity.
  - left. reflexivity.
Defined.

(** X10.  The conversion of attributes loses nothing: the wire attributes
    determine the inode and every field of the attributes they were made
    from. *)
Theorem convertAttributes_injective
    (inode inode' : InodeID) (attr attr' : InodeAttributes) :
  convertAttributes inode attr = convertAttributes inode' attr' ->
  inode = inode' /\ attr = attr'.
Proof.
  destruct attr, attr'. unfold convertAttributes. cbn.
  intros H. inversion H. subst. split; reflexivity.
Qed.

Lemma convertAttributes_injective_witness :
  2 = 2 /\ sample_attributes = sample_attributes.
Proof.
  apply (convertAttributes_injective 2 2 sample_attributes sample_attributes).
  reflexivity.
Defined.

(** * Further properties of the read loop *)

(** X11.  What [Serve] did can be read back from its result: the requests
    it started are exactly the requests the connection delivered before its
    first error; [Serve] is still reading exactly when there was no error;
    and when it returned, the first error is [io.EOF] for a nil result and
    the error that was wrapped otherwise. *)
Theorem Serve_decomposition (c : list ReadResult) :
  exists rest,
    c = map ReadOk (fst (Serve c)) ++ rest /\
    match snd (Serve c) with
    | None => rest = []
    | Some result =>
        exists err rest',
          rest = ReadErr err :: rest' /\
          result = if error_eq_dec err io_EOF then None
                   else Some (fmt_Errorf "Conn.ReadRequest: %v" err)
    end.
Proof.
  induction c as [|[fuseReq|err] c IH]; cbn.
  - exists []. split; reflexivity.
  - destruct IH as (rest & Hc & Hrest). destruct (Serve c) as [started result].
    cbn in *. exists rest. split; [congruence|exact Hrest].
  - exists (ReadErr err :: c).
    destruct (error_eq_dec err io_EOF) as [Heq|Hne]; cbn;
      (split; [reflexivity|]); exists err, c; split; try reflexivity.
    + destruct (error_eq_dec err io_EOF); [reflexivity|contradiction].
    + destruct (error_eq_dec err io_EOF); [contradiction|reflexivity].
Qed.

(** X12.  An error that [Serve] returns is never [io.EOF] and never the
    bare error of the connection: it is the wrapping, under the text
    "Conn.ReadRequest: ", of an error the connection delivered, and that
    error is not [io.EOF]. *)
Theorem Serve_error_is_wrapped (c : list ReadResult) (err : error) :
  snd (Serve c) = Some (Some err) ->
  err <> io_EOF /\
  exists cause,
    err = fmt_Errorf "Conn.ReadRequest: %v" cause /\
    cause <> io_EOF /\
    In (ReadErr cause) c.
Proof.
  induction c as [|[fuseReq|cause] c IH]; cbn.
  - discriminate.
  - destruct (Serve c) as [started result]. cbn in *. intros H.
    destruct (IH H) as (Hne & cause & Herr & Hcause & Hin).
    split; [exact Hne|]. exists cause. auto.
  - destruct (error_eq_dec cause io_EOF) as [Heq|Hne]; cbn;
      intros H; inversion H; subst.
    split; [discriminate|]. exists cause. auto.
Qed.

Lemma Serve_error_is_wrapped_witness :
  fmt_Errorf "Conn.ReadRequest: %v" (Errno 5) <> io_EOF /\
  exists cause,
    fmt_Errorf "Conn.ReadRequest: %v" (Errno 5) =
      fmt_Errorf "Conn.ReadRequest: %v" cause /\
    cause <> io_EOF /\
    In (ReadErr cause) [ReadOk sample_open_file; ReadErr (Errno 5)].
Proof.
  apply (Serve_error_is_wrapped
           [ReadOk sample_open_file; ReadErr (Errno 5)]
           (fmt_Errorf "Conn.ReadRequest: %v" (Errno 5))).
  reflexivity.
Defined.

(** X13.  Reading one stretch of the connection and then another: if
    [Serve] returned within the first, the second is never read; if it is
    still reading after the first, it goes on with the second, and the
    requests it starts are those of the first followed by those of the
    second. *)
Theorem Serve_app (c1 c2 : list ReadResult) :
  Serve (c1 ++ c2) =
    match snd (Serve c1) with
    | Some _ => Serve c1
    | None => (fst (Serve c1) ++ fst (Serve c2), snd (Serve c2))
    end.
Proof.
  induction c1 as [|[fuseReq|err] c1 IH]; cbn.
  - destruct (Serve c2); reflexivity.
  - rewrite IH. destruct (Serve c1) as [started [result|]]; reflexivity.
  - destruct (error_eq_dec err io_EOF); reflexivity.
Qed.

(** * Further properties of the goroutines *)

(** X14.  Under any schedule, and whatever the file system does, a
    goroutine runs the handler of its own request and nothing else: the
    calls it has made, in order and with the answers they got, lead from
    [handleFuseRequest] of its request to what is left of it. *)
Theorem goroutine_follows_its_handler
    {S : Type} (env : Env S) (c : list ReadResult) (s : S) (sys : System S)
    (i : nat) (task : bazilfuse.Request * Prog unit) :
  reaches env (boot c s) sys ->
  nth_error (sys_tasks sys) i = Some task ->
  path (handleFuseRequest (fst task)) (events_of i (sys_trace sys)) (snd task).
Proof.
  intros Hreach. revert i task.
  cut (Forall (fun p => (fst p < List.length (sys_tasks sys))%nat)
              (sys_trace sys) /\
       forall i task, nth_error (sys_tasks sys) i = Some task ->
                      path (handleFuseRequest (fst task))
                           (events_of i (sys_trace sys)) (snd task)).
  { intros [_ H]. exact H. }
  remember (boot c s) as sys0 eqn:E.
  induction Hreach as [|sys0 sys1 sys2 Hreach IH Hstep].
  - subst. cbn. split; [constructor|].
    intros [|i] task H; discriminate H.
  - eapply follows_step; [exact Hstep|apply IH; exact E].
Qed.

Lemma goroutine_follows_its_handler_witness :
  path (handleFuseRequest sample_open_file)
       (events_of 0 (sys_trace sample_system)) (Ret tt).
Proof.
  apply (goroutine_follows_its_handler
           (simulated (5 * Second) (2 * Second) 0) sample_conn 0
           sample_system 0 (sample_open_file, Ret tt)).
  - exact sample_system_reached.
  - reflexivity.
Defined.

(** X15.  The system only ever grows: what has been recorded stays and is
    added to, the connection is consumed from its front, goroutines are
    never removed and keep their requests; and once [Serve] has returned,
    its result stands, the connection is read no further and no goroutine
    is started. *)
Theorem system_only_grows
    {S : Type} (env : Env S) (sys sys' : System S) :
  reaches env sys sys' ->
  (exists more, sys_trace sys' = sys_trace sys ++ more) /\
  (exists read, sys_conn sys = read ++ sys_conn sys') /\
  (exists new,
      map fst (sys_tasks sys') = map fst (sys_tasks sys) ++ new) /\
  (forall result,
      sys_serve sys = Some result ->
      sys_serve sys' = Some result /\
      sys_conn sys' = sys_conn sys /\
      map fst (sys_tasks sys') = map fst (sys_tasks sys)).
Proof.
  intros Hreach.
  induction Hreach as [sys|sys sys1 sys2 Hreach IH Hstep].
  - repeat split; auto.
    + exists []. rewrite app_nil_r. reflexivity.
    + exists []. reflexivity.
    + exists []. rewrite app_nil_r. reflexivity.
  - destruct IH as ((more & Htr) & (read & Hconn) & (new & Htasks) & Hdone).
    destruct Hstep as [r c' tasks s tr fuseReq Hturn
                      |r c' tasks s tr err Hturn
                      |c' serve before on X e k after s tr x s1 Hp];
      cbn [sys_tasks sys_trace sys_conn sys_serve] in *.
    + repeat split.
      * eauto.
      * exists (read ++ [r]). rewrite <- app_assoc. exact Hconn.
      * exists (new ++ [fuseReq]).
        rewrite map_app, Htasks, <- app_assoc. reflexivity.
      * destruct (Hdone result H) as (Hs & _). discriminate Hs.
      * destruct (Hdone result H) as (Hs & _). discriminate Hs.
      * destruct (Hdone result H) as (Hs & _). discriminate Hs.
    + repeat split.
      * eauto.
      * exists (read ++ [r]). rewrite <- app_assoc. exact Hconn.
      * eauto.
      * destruct (Hdone result H) as (Hs & _). discriminate Hs.
      * destruct (Hdone result H) as (Hs & _). discriminate Hs.
      * destruct (Hdone result H) as (Hs & _). discriminate Hs.
    + rewrite map_app in *. cbn [map fst] in *. repeat split.
      * exists (more ++ [(List.length before, Ev e x)]).
        rewrite Htr, <- app_assoc. reflexivity.
      * eauto.
      * eauto.
      * apply (Hdone result H).
      * apply (Hdone result H).
      * apply (Hdone result H).
Qed.

Lemma sample_system_midway_continues :
  reaches (simulated (5 * Second) (2 * Second) 0) sample_system_midway
          sample_system.
Proof.
  apply (goroutine_runs (simulated (5 * Second) (2 * Second) 0)
           [] (Some None) [] sample_open_file
           [(bazilfuse.Getattr sample_getattr, Ret tt)]
           (handleFuseRequest sample_open_file)).
  reflexivity.
Defined.

Lemma sample_system_midway_reached :
  reaches (simulated (5 * Second) (2 * Second) 0) (boot sample_conn 0)
          sample_system_midway.
Proof.
  set (env := simulated (5 * Second) (2 * Second) 0).
  eapply reaches_cons.
  { apply (step_Serve_go env (ReadOk sample_open_file) _ [] 0 []
                         sample_open_file).
    reflexivity. }
  eapply reaches_cons.
  { apply (step_Serve_go env (ReadOk (bazilfuse.Getattr sample_getattr))
             _ [(sample_open_file, handleFuseRequest sample_open_file)]
             0 [] (bazilfuse.Getattr sample_getattr)).
    reflexivity. }
  eapply reaches_step.
  - apply (goroutine_runs env [ReadErr io_EOF] None
             [(sample_open_file, handleFuseRequest sample_open_file)]
             (bazilfuse.Getattr sample_getattr) []
             (handleFuseRequest (bazilfuse.Getattr sample_getattr))
             0 []).
    reflexivity.
  - apply (step_Serve_return env (ReadErr io_EOF) [] _ _ _ None).
    reflexivity.
Defined.

(** From the sample connection served halfway (the second goroutine has
    made its five calls, [Serve] has returned nil) to its end: the five
    calls stay and the first goroutine's three are added, and [Serve]'s
    result, the connection and the goroutines' requests are as they were. *)
Lemma system_only_grows_witness :
  reaches (simulated (5 * Second) (2 * Second) 0) (boot sample_conn 0)
          sample_system_midway /\
  List.length (sys_trace sample_system_midway) = 5%nat /\
  List.length (sys_trace sample_system) = 8%nat /\
  (exists more,
      sys_trace sample_system = sys_trace sample_system_midway ++ more) /\
  (exists read,
      sys_conn sample_system_midway = read ++ sys_conn sample_system) /\
  (exists new,
      map fst (sys_tasks sample_system) =
      map fst (sys_tasks sample_system_midway) ++ new) /\
  sys_serve sample_system = Some None /\
  sys_conn sample_system = sys_conn sample_system_midway /\
  map fst (sys_tasks sample_system) = map fst (sys_tasks sample_system_midway).
Proof.
  pose proof (system_only_grows
                (simulated (5 * Second) (2 * Second) 0)
                sample_system_midway sample_system
                sample_system_midway_continues) as (H1 & H2 & H3 & H4).
  split; [exact sample_system_midway_reached|].
  split; [reflexivity|]. split; [reflexivity|].
  exact (conj H1 (conj H2 (conj H3 (H4 None eq_refl)))).
Defined.

(** [Serve] may read the whole connection before any goroutine moves: the
    system then holds what the function [Serve] says. *)
Lemma Serve_reads_on {S : Type} (env : Env S) (c : list ReadResult) :
  forall tasks (s : S) tr,
  exists c',
    reaches env
      (mkSystem c None tasks s tr)
      (mkSystem c' (snd (Serve c))
                (tasks ++ map (fun r => (r, handleFuseRequest r))
                              (fst (Serve c)))
                s tr).
Proof.
  induction c as [|[fuseReq|err] c IH]; intros tasks s tr.
  - exists []. cbn. rewrite app_nil_r. apply reaches_refl.
  - destruct (IH (tasks ++ [(fuseReq, handleFuseRequest fuseReq)]) s tr)
      as (c' & Hrest).
    exists c'. cbn. destruct (Serve c) as [started result]. cbn in *.
    rewrite <- app_assoc in Hrest. cbn [app] in Hrest.
    eapply reaches_trans; [|exact Hrest].
    eapply reaches_step; [apply reaches_refl|].
    apply step_Serve_go. reflexivity.
  - exists c. cbn.
    destruct (error_eq_dec err io_EOF) as [Heq|Hne]; cbn;
      rewrite app_nil_r;
      (eapply reaches_step; [apply reaches_refl|]);
      apply step_Serve_return; cbn;
      destruct (error_eq_dec err io_EOF); try contradiction; reflexivity.
Qed.

(** X16.  Every connection can be served to the end: there is a schedule
    after which [Serve] has done what the function [Serve] says (returned
    its result, or is still reading when the connection delivered no error),
    the goroutines are those of the requests it lists, in order, all have
    finished, and each has replied exactly once. *)
Theorem connection_can_be_served
    {S : Type} (env : Env S) (c : list ReadResult) (s : S) :
  provider_contract env ->
  exists sys,
    reaches env (boot c s) sys /\
    sys_serve sys = snd (Serve c) /\
    map fst (sys_tasks sys) = fst (Serve c) /\
    forallb finished (sys_tasks sys) = true /\
    forall i, (i < List.length (fst (Serve c)))%nat ->
              List.length (replies (events_of i (sys_trace sys))) = 1%nat.
Proof.
  intros Hc.
  destruct (Serve_reads_on env c [] s []) as (c' & Hread). cbn [app] in Hread.
  set (tasks := map (fun r => (r, handleFuseRequest r)) (fst (Serve c))) in *.
  destruct (goroutines_can_finish env c' (snd (Serve c)) Hc tasks [] s [])
    as (s' & tr' & Hfinish).
  { intros task Hin. subst tasks. apply in_map_iff in Hin.
    destruct Hin as (r & <- & _). exists 1%nat. apply handleFuseRequest_owes. }
  cbn [app] in Hfinish.
  assert (Hreach : reaches env (boot c s)
                     (mkSystem c' (snd (Serve c))
                               (map (fun t => (fst t, Ret tt)) tasks) s' tr'))
    by (eapply reaches_trans; [exact Hread|exact Hfinish]).
  eexists. split; [exact Hreach|]. cbn [sys_serve sys_tasks sys_trace].
  assert (Hstarted : map fst (map (fun t => (fst t, @Ret unit tt)) tasks) =
                     fst (Serve c)).
  { subst tasks. rewrite !map_map. cbn. apply map_id. }
  repeat split.
  - exact Hstarted.
  - clear. induction tasks as [|t tasks IH]; cbn; auto.
  - intros i Hi.
    destruct (invariant_reaches env c s _ Hc Hreach) as (_ & _ & Htasks).
    cbn [sys_tasks sys_trace] in Htasks.
    destruct (nth_error (map (fun t => (fst t, @Ret unit tt)) tasks) i)
      as [task|] eqn:Hnth.
    + destruct (Htasks i task Hnth) as (n & Howes & Hlen & _).
      rewrite nth_error_map in Hnth.
      destruct (nth_error tasks i) as [t|]; [|discriminate Hnth].
      cbn in Hnth. inversion Hnth; subst task.
      apply owes_inv in Howes. cbn in Howes. lia.
    + apply nth_error_None in Hnth. rewrite <- Hstarted in Hi.
      rewrite !length_map in *. lia.
Qed.

Lemma connection_can_be_served_witness :
  exists sys,
    reaches (simulated (5 * Second) (2 * Second) 0) (boot sample_conn 0) sys /\
    sys_serve sys = Some None /\
    map fst (sys_tasks sys) =
      [sample_open_file; bazilfuse.Getattr sample_getattr] /\
    forallb finished (sys_tasks sys) = true /\
    forall i, (i < 2)%nat ->
              List.length (replies (events_of i (sys_trace sys))) = 1%nat.
Proof.
  apply (connection_can_be_served
           (simulated (5 * Second) (2 * Second) 0) sample_conn 0).
  simulated_contract.
Defined.
